(** * Calculator: the AccuDraw calculator widget's interaction controller

    A shallow embedding of the class [Calculator] and of the key pad of
    ui-framework/accudraw/Calculator.tsx.  The component is imperative: its
    methods mutate the instance field [_equalsClicked], the React state
    [displayValue] and the engine object the props refer to, and they call
    the host's callbacks.  Methods are therefore computations in a small
    state monad over one record holding all of that, together with a log of
    the calls made to the outside (engine, host callbacks, DOM focus). *)

From Stdlib Require Import String Ascii List Bool ZArith.
From Stdlib Require Import DecimalString.
Import ListNotations.
Open Scope string_scope.
Open Scope list_scope.

(** ** The operator enumeration *)

(** Modelled from the spec: the enumeration [CalculatorOperator], declared in
    CalculatorEngine.ts, which Calculator.tsx imports.  These are the ten
    members the spec lists, and the ten members Calculator.tsx uses. *)
Inductive CalculatorOperator : Type :=
  | ClearAll | Clear | Backspace | Divide | Multiply
  | Subtract | Add | Decimal | Equals | NegPos.

Definition CalculatorOperator_eq_dec (a b : CalculatorOperator) :
  {a = b} + {a <> b}.
Proof. decide equality. Defined.

(** [a === b] on two members of the enumeration. *)
Definition op_eqb (a b : CalculatorOperator) : bool :=
  if CalculatorOperator_eq_dec a b then true else false.

Infix "===" := op_eqb (at level 70, no associativity).

(** ** What the component takes from JavaScript and from the engine *)

(** The two primitives of a JavaScript Number the constructor relies on:
    its truthiness ([if (this.props.initialValue)]) and
    [Number.prototype.toString]. *)
Class JSNumber (number : Type) : Type := {
  ToBoolean : number -> bool;
  toString : number -> string
}.

(** The members of the class [CalculatorEngine] that Calculator.tsx calls.
    The engine is an object mutated in place, so every method takes the
    engine's state and the mutating ones return the new one. *)
Class CalculatorEngine (number E : Type) : Type := {
  processValue : string -> E -> E * string;
  processOperator : CalculatorOperator -> E -> E * string;
  clearAll : E -> E;
  result : E -> number
}.

(** Calls that leave the component. *)
Inductive Call (number : Type) : Type :=
  | EngineProcessValue (value : string)
  | EngineProcessOperator (operator : CalculatorOperator)
  | EngineClearAll
  | HostOnOk (value : number)
  | HostOnCancel
  | MainDivFocus.

Arguments EngineProcessValue {number} value.
Arguments EngineProcessOperator {number} operator.
Arguments EngineClearAll {number}.
Arguments HostOnOk {number} value.
Arguments HostOnCancel {number}.
Arguments MainDivFocus {number}.

(** The buttons [CalculatorKeyPad] renders. *)
Inductive KeyPadButton : Type :=
  | OperatorButton (operator : CalculatorOperator)
  | ValueButton (keyChar : string).

(** One action of the user on the controller: a value or an operator
    (the arguments of [_onValueButtonClick] and [_onOperatorButtonClick]). *)
Inductive Action : Type :=
  | ValueAction (keyChar : string)
  | OperatorAction (operator : CalculatorOperator).

(** The events the elements [render] creates subscribe to: [onKeyDown] of
    the main div, [onClick] of a key pad button, of the OK button and of the
    cancel button. *)
Inductive UIEvent : Type :=
  | KeyDown (key : string)
  | KeyPadClick (b : KeyPadButton)
  | OkClick
  | CancelClick.

Section Calculator.

Context {number : Type} `{JSNumber number}.
Context {E : Type} `{CalculatorEngine number E}.
(** Whatever the host's callbacks act on. *)
Context {Host : Type}.

Definition OnCommitFunc : Type := number -> Host -> Host.
Definition OnCancelFunc : Type := Host -> Host.

(** [CalculatorProps], without the styling props and without [engine],
    which is a reference: the object it refers to is a field of
    [Calculator] below. *)
Record CalculatorProps : Type := {
  initialValue : option number;
  onOk : option OnCommitFunc;
  onCancel : option OnCancelFunc
}.

(** A component instance with everything its methods can reach. *)
Record Calculator : Type := {
  props : CalculatorProps;
  engine : E;                (* the object [this.props.engine] *)
  displayValue : string;     (* [this.state.displayValue] *)
  _equalsClicked : bool;
  _mainDiv : bool;           (* is [this._mainDiv.current] set? *)
  host : Host;
  calls : list (Call number) (* oldest first *)
}.

(** *** The state monad of the methods *)

Definition M (A : Type) : Type := Calculator -> A * Calculator.

Definition ret {A : Type} (a : A) : M A := fun this => (a, this).

Definition bind {A B : Type} (m : M A) (k : A -> M B) : M B :=
  fun this => let (a, this') := m this in k a this'.

Definition exec {A : Type} (m : M A) (this : Calculator) : Calculator :=
  snd (m this).

Notation "x <- m ;; k" := (bind m (fun x => k))
  (at level 61, m at next level, right associativity).
Notation "m ;; k" := (bind m (fun _ => k))
  (at level 61, right associativity).

Definition logCall (c : Call number) (this : Calculator) : Calculator :=
  {| props := props this; engine := engine this;
     displayValue := displayValue this;
     _equalsClicked := _equalsClicked this; _mainDiv := _mainDiv this;
     host := host this; calls := calls this ++ [c] |}.

Definition withEngine (e : E) (this : Calculator) : Calculator :=
  {| props := props this; engine := e;
     displayValue := displayValue this;
     _equalsClicked := _equalsClicked this; _mainDiv := _mainDiv this;
     host := host this; calls := calls this |}.

Definition withHost (h : Host) (this : Calculator) : Calculator :=
  {| props := props this; engine := engine this;
     displayValue := displayValue this;
     _equalsClicked := _equalsClicked this; _mainDiv := _mainDiv this;
     host := h; calls := calls this |}.

(** [this.props.engine.processValue(value)] *)
Definition engine_processValue (value : string) : M string :=
  fun this =>
    let (e, display) := processValue value (engine this) in
    (display, logCall (EngineProcessValue value) (withEngine e this)).

(** [this.props.engine.processOperator(operator)] *)
Definition engine_processOperator (operator : CalculatorOperator) : M string :=
  fun this =>
    let (e, display) := processOperator operator (engine this) in
    (display, logCall (EngineProcessOperator operator) (withEngine e this)).

(** [this.props.engine.clearAll()] *)
Definition engine_clearAll : M unit :=
  fun this =>
    (tt, logCall EngineClearAll (withEngine (clearAll (engine this)) this)).

(** [this.props.engine.result] *)
Definition engine_result : M number :=
  fun this => (result (engine this), this).

(** [this.setState({ displayValue })] *)
Definition setState (display : string) : M unit :=
  fun this =>
    (tt, {| props := props this; engine := engine this;
            displayValue := display;
            _equalsClicked := _equalsClicked this; _mainDiv := _mainDiv this;
            host := host this; calls := calls this |}).

Definition get_equalsClicked : M bool :=
  fun this => (_equalsClicked this, this).

Definition set_equalsClicked (b : bool) : M unit :=
  fun this =>
    (tt, {| props := props this; engine := engine this;
            displayValue := displayValue this;
            _equalsClicked := b; _mainDiv := _mainDiv this;
            host := host this; calls := calls this |}).

Definition get_props : M CalculatorProps :=
  fun this => (props this, this).

(** [this.props.onOk(value)] *)
Definition call_onOk (f : OnCommitFunc) (value : number) : M unit :=
  fun this => (tt, logCall (HostOnOk value) (withHost (f value (host this)) this)).

(** [this.props.onCancel()] *)
Definition call_onCancel (f : OnCancelFunc) : M unit :=
  fun this => (tt, logCall HostOnCancel (withHost (f (host this)) this)).

(** *** The methods of [Calculator] *)

Definition _mainDivFocus : M unit :=
  fun this =>
    if _mainDiv this then (tt, logCall MainDivFocus this) else (tt, this).

Definition constructor (p : CalculatorProps) (e : E) (h : Host) : Calculator :=
  let this :=
    {| props := p; engine := e; displayValue := "";
       _equalsClicked := false; _mainDiv := false;
       host := h; calls := [] |} in
  exec (display <-
          match initialValue p with
          | Some v =>
              if ToBoolean v then engine_processValue (toString v)
              else ret "0"
          | None => ret "0"
          end ;;
        setState display) this.

Definition _onValueButtonClick (keyChar : string) : M unit :=
  display <- engine_processValue keyChar ;;
  _mainDivFocus ;;
  setState display.

Definition _onOperatorButtonClick (operator : CalculatorOperator) : M unit :=
  equalsClicked <- get_equalsClicked ;;
  let operator :=
    if (operator === Clear) && equalsClicked then ClearAll else operator in
  display <- engine_processOperator operator ;;
  _mainDivFocus ;;
  setState display ;;
  if operator === Equals then set_equalsClicked true
  else if operator === ClearAll then set_equalsClicked false
  else ret tt.

Definition _clearAll : M unit :=
  engine_clearAll ;;
  set_equalsClicked false.

Definition _ok : M unit :=
  p <- get_props ;;
  match onOk p with
  | Some f => value <- engine_result ;; call_onOk f value
  | None => ret tt
  end ;;
  _clearAll.

Definition _cancel : M unit :=
  p <- get_props ;;
  match onCancel p with
  | Some f => call_onCancel f
  | None => ret tt
  end ;;
  _clearAll.

Definition _handleOk : M unit := _ok.
Definition _handleCancel : M unit := _cancel.

(** React sets the ref of the main div when it mounts the component, and
    then calls [componentDidMount]. *)
Definition componentDidMount : M unit := _mainDivFocus.

Definition mount : M unit :=
  (fun this =>
     (tt, {| props := props this; engine := engine this;
             displayValue := displayValue this;
             _equalsClicked := _equalsClicked this; _mainDiv := true;
             host := host this; calls := calls this |})) ;;
  componentDidMount.

(** [key] is the label of one of the [case]s. *)
Definition isCase (key : string) (labels : list string) : bool :=
  existsb (String.eqb key) labels.

Definition _handleKeyDown (key : string) : M unit :=
  if isCase key ["0"; "1"; "2"; "3"; "4"; "5"; "6"; "7"; "8"; "9"] then
    _onValueButtonClick key
  else if isCase key ["a"; "A"] then
    _onOperatorButtonClick ClearAll
  else if isCase key ["c"; "C"; "Clear"] then
    _onOperatorButtonClick Clear
  else if isCase key ["Escape"] then
    _cancel
  else if isCase key ["Backspace"] then
    _onOperatorButtonClick Backspace
  else if isCase key ["/"; "Divide"] then
    _onOperatorButtonClick Divide
  else if isCase key ["*"; "Multiply"] then
    _onOperatorButtonClick Multiply
  else if isCase key ["-"; "Subtract"] then
    _onOperatorButtonClick Subtract
  else if isCase key ["+"; "Add"] then
    _onOperatorButtonClick Add
  else if isCase key ["."; "Decimal"] then
    _onOperatorButtonClick Decimal
  else if isCase key ["="] then
    _onOperatorButtonClick Equals
  else if isCase key ["Enter"] then
    equalsClicked <- get_equalsClicked ;;
    (if negb equalsClicked then _onOperatorButtonClick Equals else ret tt) ;;
    _ok
  else
    ret tt.

(** *** The key pad *)

(** The buttons of [CalculatorKeyPad.render], in the order of the grid. *)
Definition CalculatorKeyPad : list KeyPadButton :=
  [ OperatorButton ClearAll; OperatorButton Clear;
    OperatorButton Backspace; OperatorButton Divide;
    ValueButton "7"; ValueButton "8"; ValueButton "9";
    OperatorButton Multiply;
    ValueButton "4"; ValueButton "5"; ValueButton "6";
    OperatorButton Subtract;
    ValueButton "1"; ValueButton "2"; ValueButton "3";
    OperatorButton Add;
    ValueButton "0"; OperatorButton NegPos;
    OperatorButton Decimal; OperatorButton Equals ].

(** [ValueButton._handleOnClick] and [OperatorButton._handleOnClick], with
    the [onClick] props the calculator's [render] gives the key pad. *)
Definition _handleOnClick (b : KeyPadButton) : M unit :=
  match b with
  | ValueButton keyChar => _onValueButtonClick keyChar
  | OperatorButton operator => _onOperatorButtonClick operator
  end.

(** *** Sequences of actions *)

(** The instance React hands to the user: constructed, and mounted or not
    yet. *)
Definition initial (p : CalculatorProps) (e : E) (h : Host) (mounted : bool) :
  Calculator :=
  if mounted then exec mount (constructor p e h) else constructor p e h.

Definition submit (a : Action) : M unit :=
  match a with
  | ValueAction keyChar => _onValueButtonClick keyChar
  | OperatorAction operator => _onOperatorButtonClick operator
  end.

Fixpoint submitAll (actions : list Action) : M unit :=
  match actions with
  | [] => ret tt
  | a :: rest => submit a ;; submitAll rest
  end.

(** The operator [_onOperatorButtonClick] passes to the engine: the value of
    its variable [operator] after the first statement. *)
Definition dispatched (operator : CalculatorOperator) (this : Calculator) :
  CalculatorOperator :=
  if (operator === Clear) && _equalsClicked this then ClearAll else operator.

(** What [_mainDivFocus] adds to the log. *)
Definition focusCalls (this : Calculator) : list (Call number) :=
  if _mainDiv this then [MainDivFocus] else [].

(** What the host sees of [_ok] and of [_cancel]. *)
Definition okCalls (this : Calculator) : list (Call number) :=
  match onOk (props this) with
  | Some _ => [HostOnOk (result (engine this))]
  | None => []
  end.

Definition cancelCalls (this : Calculator) : list (Call number) :=
  match onCancel (props this) with
  | Some _ => [HostOnCancel]
  | None => []
  end.

(** [_equalsClicked] is true only if [Equals] went to the engine. *)
Definition equalsLogged (this : Calculator) : Prop :=
  _equalsClicked this = true ->
  In (EngineProcessOperator Equals) (calls this).

(** The calls [this'] has logged are those of [this] and then some more, of
    which none passes [operator] to the engine. *)
Definition addsNo (operator : CalculatorOperator) (this this' : Calculator) :
  Prop :=
  exists added,
    calls this' = calls this ++ added /\
    ~ In (EngineProcessOperator operator) added.

(** *** The handlers [render] installs *)

Definition dispatchEvent (ev : UIEvent) : M unit :=
  match ev with
  | KeyDown key => _handleKeyDown key
  | KeyPadClick b => _handleOnClick b
  | OkClick => _handleOk
  | CancelClick => _handleCancel
  end.

Fixpoint dispatchAll (events : list UIEvent) : M unit :=
  match events with
  | [] => ret tt
  | ev :: rest => dispatchEvent ev ;; dispatchAll rest
  end.

(** The event can come from what [render] puts on the screen: a click is a
    click on one of the buttons of the key pad. *)
Definition rendered (ev : UIEvent) : Prop :=
  match ev with
  | KeyPadClick b => In b CalculatorKeyPad
  | _ => True
  end.

(** The event is one that commits or cancels. *)
Definition closes (ev : UIEvent) : bool :=
  match ev with
  | KeyDown key => isCase key ["Enter"; "Escape"]
  | KeyPadClick _ => false
  | OkClick | CancelClick => true
  end.

(** *** The instance read off the log of its calls *)

(** The engine and the string it returned last, after one more call. *)
Definition replayCall (s : E * string) (c : Call number) : E * string :=
  match c with
  | EngineProcessValue value => processValue value (fst s)
  | EngineProcessOperator operator => processOperator operator (fst s)
  | EngineClearAll => (clearAll (fst s), snd s)
  | _ => s
  end.

Definition replay (log : list (Call number)) (s : E * string) : E * string :=
  fold_left replayCall log s.

(** Whether the last of the calls that matter to [_equalsClicked] passed
    [Equals]; [finalized] if there is none. *)
Definition finalizedCall (finalized : bool) (c : Call number) : bool :=
  match c with
  | EngineProcessOperator operator =>
      if operator === Equals then true
      else if operator === ClearAll then false
      else finalized
  | EngineClearAll => false
  | _ => finalized
  end.

Definition finalizedBy (log : list (Call number)) (finalized : bool) : bool :=
  fold_left finalizedCall log finalized.

Definition isFocus (c : Call number) : bool :=
  match c with MainDivFocus => true | _ => false end.

Definition isAction (c : Call number) : bool :=
  match c with
  | EngineProcessValue _ | EngineProcessOperator _ => true
  | _ => false
  end.

Definition isEngineCall (c : Call number) : bool :=
  match c with
  | EngineProcessValue _ | EngineProcessOperator _ | EngineClearAll => true
  | _ => false
  end.

Definition isHostCall (c : Call number) : bool :=
  match c with HostOnOk _ | HostOnCancel => true | _ => false end.

(** [this'] is [this] after more calls, [added], and is what those calls
    make of it. *)
Definition tracks (this this' : Calculator) : Prop :=
  exists added,
    calls this' = calls this ++ added /\
    (engine this', displayValue this') =
      replay added (engine this, displayValue this) /\
    _equalsClicked this' = finalizedBy added (_equalsClicked this) /\
    props this' = props this /\
    _mainDiv this' = _mainDiv this /\
    length (filter isFocus added) =
      (if _mainDiv this then length (filter isAction added) else 0).

(** [this'] is [this] after more calls, none of them to the host, whose
    state is as it was. *)
Definition quiet (this this' : Calculator) : Prop :=
  host this' = host this /\
  exists added,
    calls this' = calls this ++ added /\
    forall c, In c added -> isHostCall c = false.

End Calculator.

Arguments CalculatorProps : clear implicits.
Arguments Calculator : clear implicits.
Arguments M : clear implicits.

(** ** The key table of the specification *)

(** The keys of the digit row of the table. *)
Definition digitKeys : list string :=
  ["0"; "1"; "2"; "3"; "4"; "5"; "6"; "7"; "8"; "9"].

(** Every key the table of the input normalizer lists, row by row:
    digits, ClearAll, Clear, Backspace, Divide, Multiply, Subtract, Add,
    Decimal, Equals, Escape, Enter. *)
Definition specKeyTable : list string :=
  digitKeys ++
  ["a"; "A"] ++ ["c"; "C"; "Clear"] ++ ["Backspace"] ++
  ["/"; "Divide"] ++ ["*"; "Multiply"] ++ ["-"; "Subtract"] ++
  ["+"; "Add"] ++ ["."; "Decimal"] ++ ["="] ++ ["Escape"] ++ ["Enter"].

(** ** An engine to run the controller on *)

Module IntegerEngine.

(** Modelled from the spec: the class [CalculatorEngine] of
    CalculatorEngine.ts, which is not among the sources at hand.  The
    specification asks four things of it: [processValue] applies digits to
    the current entry and returns the display string, [processOperator]
    applies one of the ten operators and returns the display string,
    [clearAll] resets all of the engine's state (the display of a cleared
    engine being "0"), and [result] is the current numeric value.  This
    engine does that on integers; [Decimal] has nothing to do there.  It
    only serves to run the controller on concrete inputs. *)
Record State : Type := {
  entry : Z;                           (* the number on display *)
  accumulator : Z;
  pending : option CalculatorOperator; (* binary operator waiting for [entry] *)
  startNew : bool                      (* the next digit starts a new entry *)
}.

(** Modelled from the spec: a JavaScript Number holding an integer; [0] is
    its one falsy value and [toString] writes it in decimal. *)
#[export] Instance Z_JSNumber : JSNumber Z := {
  ToBoolean z := negb (z =? 0)%Z;
  toString z := NilZero.string_of_int (Z.to_int z)
}.

Definition cleared : State :=
  {| entry := 0; accumulator := 0; pending := None; startNew := false |}.

Definition display (s : State) : string := toString (entry s).

Definition digitValue (c : ascii) : option Z :=
  let n := Z.of_nat (nat_of_ascii c) in
  if ((48 <=? n) && (n <=? 57))%Z then Some (n - 48)%Z else None.

Fixpoint appendDigits (value : string) (n : Z) : Z :=
  match value with
  | EmptyString => n
  | String c rest =>
      match digitValue c with
      | Some d => appendDigits rest (10 * n + d)%Z
      | None => appendDigits rest n
      end
  end.

Definition apply (operator : option CalculatorOperator) (a b : Z) : Z :=
  match operator with
  | Some Add => (a + b)%Z
  | Some Subtract => (a - b)%Z
  | Some Multiply => (a * b)%Z
  | Some Divide => Z.quot a b
  | _ => b
  end.

Definition withEntry (n : Z) (s : State) : State :=
  {| entry := n; accumulator := accumulator s; pending := pending s;
     startNew := false |}.

Definition step (operator : CalculatorOperator) (s : State) : State :=
  match operator with
  | ClearAll => cleared
  | Clear => withEntry 0 s
  | Backspace => withEntry (Z.quot (entry s) 10) s
  | NegPos => withEntry (- entry s) s
  | Decimal => s
  | Equals =>
      {| entry := apply (pending s) (accumulator s) (entry s);
         accumulator := 0; pending := None; startNew := true |}
  | Divide | Multiply | Subtract | Add =>
      let r := apply (pending s) (accumulator s) (entry s) in
      {| entry := r; accumulator := r; pending := Some operator;
         startNew := true |}
  end.

#[export] Instance integerEngine : CalculatorEngine Z State := {
  processValue value s :=
    let s' :=
      withEntry (appendDigits value (if startNew s then 0%Z else entry s)) s in
    (s', display s');
  processOperator operator s := (step operator s, display (step operator s));
  clearAll _ := cleared;
  result s := entry s
}.

(** A host that keeps the values committed to it and counts the cancels. *)
Record Host : Type := { committed : list Z; cancelled : nat }.

Definition record (value : Z) (h : Host) : Host :=
  {| committed := committed h ++ [value]; cancelled := cancelled h |}.

Definition countCancel (h : Host) : Host :=
  {| committed := committed h; cancelled := S (cancelled h) |}.

Definition props0 : CalculatorProps Z Host :=
  {| initialValue := None; onOk := Some record; onCancel := Some countCancel |}.

(** The calculator of the scenarios: no initial value, both callbacks, a
    cleared engine, mounted. *)
Definition fresh : Calculator Z State Host :=
  exec mount (constructor props0 cleared {| committed := []; cancelled := 0 |}).

(** The same calculator after the given keys. *)
Definition after (keys : list string) : Calculator Z State Host :=
  fold_left (fun this key => exec (_handleKeyDown key) this) keys fresh.

(** A calculator seeded with 42 and given no callback. *)
Definition propsBare : CalculatorProps Z Host :=
  {| initialValue := Some 42%Z; onOk := None; onCancel := None |}.

Definition seeded : Calculator Z State Host :=
  constructor propsBare cleared {| committed := []; cancelled := 0 |}.

End IntegerEngine.

(** * DisplayValuePropertyDataFilterer

    The filterer of property records that matches on the display value of
    a primitive record. *)

Module DisplayValuePropertyDataFilterer.

(** The two string primitives of JavaScript the filterer normalizes text
    with, [String.prototype.toLowerCase] and [String.prototype.trim]. *)
Class JSString : Type := {
  toLowerCase : string -> string;
  trim : string -> string
}.

(** [s.startsWith(t)] on the characters of the two strings. *)
Fixpoint startsWith (s t : string) {struct t} : bool :=
  match t with
  | EmptyString => true
  | String c t' =>
      match s with
      | EmptyString => false
      | String d s' => Ascii.eqb d c && startsWith s' t'
      end
  end.

(** [s.includes(t)]: [t] starts at some position of [s]. *)
Fixpoint includes (s t : string) : bool :=
  startsWith s t ||
  match s with
  | EmptyString => false
  | String _ s' => includes s' t
  end.

(** The tag of a property value, [PropertyValueFormat] of the package
    ui-abstract; [matchesFilter] only tests whether it is [Primitive]. *)
Inductive PropertyValueFormat : Type := Primitive | Array | Struct.

Definition PropertyValueFormat_eqb (a b : PropertyValueFormat) : bool :=
  match a, b with
  | Primitive, Primitive | Array, Array | Struct, Struct => true
  | _, _ => false
  end.

(** What [matchesFilter] reads of a [PropertyRecord]: the format of its
    value and the value's display value, which can be missing. *)
Record PropertyValue : Type := {
  valueFormat : PropertyValueFormat;
  displayValue : option string
}.

Record PropertyRecord : Type := { value : PropertyValue }.

Record PropertyDataFilterResult : Type := {
  matchesFilter_result : bool;              (* [matchesFilter] *)
  shouldExpandNodeParents : option bool
}.

(** An instance: its field, and how often it has raised
    [onFilterChanged]. *)
Record Filterer : Type := {
  _filterText : string;
  raised : nat
}.

(** [new DisplayValuePropertyDataFilterer()] *)
Definition create : Filterer := {| _filterText := ""; raised := 0 |}.

Section Filterer.

Context `{JSString}.

(** [get filterText] *)
Definition filterText (this : Filterer) : string := _filterText this.

(** [set filterText] *)
Definition set_filterText (value : string) (this : Filterer) : Filterer :=
  let lowerValue := trim (toLowerCase value) in
  if negb (lowerValue =? filterText this)%string then
    {| _filterText := lowerValue; raised := S (raised this) |}
  else this.

(** [get isActive] *)
Definition isActive (this : Filterer) : bool :=
  negb (filterText this =? "")%string.

Definition matchesFilter (node : PropertyRecord) (this : Filterer) :
  PropertyDataFilterResult :=
  if negb (isActive this) then
    {| matchesFilter_result := true; shouldExpandNodeParents := None |}
  else if negb (PropertyValueFormat_eqb (valueFormat (value node)) Primitive)
  then {| matchesFilter_result := false; shouldExpandNodeParents := None |}
  else
    let displayValue :=
      match displayValue (value node) with
      | Some text => toLowerCase text
      | None => ""
      end in
    if negb (includes displayValue (filterText this)) then
      {| matchesFilter_result := false; shouldExpandNodeParents := None |}
    else
      {| matchesFilter_result := true; shouldExpandNodeParents := Some true |}.

End Filterer.

(** An instance to run the filterer on: [toLowerCase] and [trim] of
    JavaScript on strings of ASCII characters.  The letters A to Z go to a
    to z, and the white space trimmed is space, tab, line feed, vertical
    tab, form feed and carriage return. *)
Module Ascii7.

Definition lowerChar (c : ascii) : ascii :=
  let n := nat_of_ascii c in
  if (65 <=? n)%nat && (n <=? 90)%nat then ascii_of_nat (n + 32) else c.

Fixpoint lower (s : string) : string :=
  match s with
  | EmptyString => EmptyString
  | String c s' => String (lowerChar c) (lower s')
  end.

Definition isSpace (c : ascii) : bool :=
  let n := nat_of_ascii c in
  (n =? 32)%nat || ((9 <=? n)%nat && (n <=? 13)%nat).

Fixpoint trimStart (s : string) : string :=
  match s with
  | EmptyString => EmptyString
  | String c s' => if isSpace c then trimStart s' else s
  end.

(** The string without the white space it ends with. *)
Fixpoint trimEnd (s : string) : string :=
  match s with
  | EmptyString => EmptyString
  | String c s' =>
      match trimEnd s' with
      | EmptyString => if isSpace c then EmptyString else String c EmptyString
      | rest => String c rest
      end
  end.

#[export] Instance ascii7 : JSString := {
  toLowerCase := lower;
  trim s := trimEnd (trimStart s)
}.

Definition primitive (text : option string) : PropertyRecord :=
  {| value := {| valueFormat := Primitive; displayValue := text |} |}.

End Ascii7.

End DisplayValuePropertyDataFilterer.

(** * DefaultProjectServices

    The project service that asks a Connect client for the projects of a
    user.  [getProjects] is asynchronous; it awaits one request after the
    other, so it is modelled as a sequence of calls on the client, whose
    state stands for the server and changes with every request. *)

Module DefaultProjectServices.

(** The members of the enumeration [ProjectScope] of ProjectServices.ts that
    [getProjects] tests, and [All] for the one it does not test. *)
Inductive ProjectScope : Type := Favorites | MostRecentlyUsed | Invited | All.

Definition ProjectScope_eq_dec (a b : ProjectScope) : {a = b} + {a <> b}.
Proof. decide equality. Defined.

Definition scope_eqb (a b : ProjectScope) : bool :=
  if ProjectScope_eq_dec a b then true else false.

(** [ProjectReadStatus] of ProjectServices.ts; a new [ProjectInfoImpl] is
    [NotRead]. *)
Inductive ProjectReadStatus : Type := NotRead | Reading | DoneReading.

(** What [createProjectInfo] reads of a [Project] of the clients package:
    [name] and [number] can be missing. *)
Module Project.

Record t : Type := {
  name : option string;
  number : option string;
  wsgId : string
}.

End Project.

(** [ProjectInfoImpl] *)
Record ProjectInfo : Type := {
  name : string;
  projectNumber : string;
  wsgId : string;
  readStatus : ProjectReadStatus
}.

(** [ConnectRequestQueryOptions], as far as [getProjects] fills it;
    [isFavorite] and [isMRU] are absent unless they are set. *)
Record ConnectRequestQueryOptions (number : Type) : Type := {
  select : string;          (* [$select] *)
  top : number;             (* [$top] *)
  skip : number;            (* [$skip] *)
  filter : option string;   (* [$filter] *)
  isFavorite : option bool;
  isMRU : option bool
}.

Arguments select {number} _.
Arguments top {number} _.
Arguments skip {number} _.
Arguments filter {number} _.
Arguments isFavorite {number} _.
Arguments isMRU {number} _.

(** The two requests of [ConnectClient] the service makes; a request
    answers with a list of projects or throws. *)
Module Client.

Class ConnectClient (number AccessToken Err C : Type) : Type := {
  getInvitedProjects :
    AccessToken -> ConnectRequestQueryOptions number -> C ->
    (Err + list Project.t) * C;
  getProjects :
    AccessToken -> ConnectRequestQueryOptions number -> C ->
    (Err + list Project.t) * C
}.

End Client.

(** What the service does to the outside, in order. *)
Inductive Effect (number Err : Type) : Type :=
  | InvitedProjectsRequest (queryOptions : ConnectRequestQueryOptions number)
  | ProjectsRequest (queryOptions : ConnectRequestQueryOptions number)
  | LogTrace (message : string)
  | Alert (e : Err).                  (* [alert(JSON.stringify(e))] *)

Arguments InvitedProjectsRequest {number Err} queryOptions.
Arguments ProjectsRequest {number Err} queryOptions.
Arguments LogTrace {number Err} message.
Arguments Alert {number Err} e.

Section Service.

Context {number AccessToken Err C : Type}.
Context `{Client.ConnectClient number AccessToken Err C}.

(** A service instance, with the effects it has had. *)
Record Service : Type := {
  _connectClient : C;
  effects : list (Effect number Err)
}.

Definition perform (f : Effect number Err) (this : Service) : Service :=
  {| _connectClient := _connectClient this; effects := effects this ++ [f] |}.

(** [s ? s : ""] for a string that can be missing: the empty string is
    falsy too. *)
Definition orEmpty (s : option string) : string :=
  match s with
  | Some text => if (text =? "")%string then "" else text
  | None => ""
  end.

(** A missing value in a template literal reads [undefined]. *)
Definition interpolate (s : option string) : string :=
  match s with Some text => text | None => "undefined" end.

(** [new ProjectInfoImpl(...)] with the arguments [createProjectInfo]
    gives it. *)
Definition newProjectInfo (thisProject : Project.t) : ProjectInfo :=
  {| name := orEmpty (Project.name thisProject);
     projectNumber := orEmpty (Project.number thisProject);
     wsgId := Project.wsgId thisProject;
     readStatus := NotRead |}.

Definition traceOf (thisProject : Project.t) : Effect number Err :=
  LogTrace ("Working on project '"
            ++ interpolate (Project.name thisProject) ++ "'")%string.

Definition createProjectInfo (thisProject : Project.t) (this : Service) :
  ProjectInfo * Service :=
  (newProjectInfo thisProject, perform (traceOf thisProject) this).

(** [await this._connectClient.getInvitedProjects(requestContext, queryOptions)] *)
Definition requestInvitedProjects (accessToken : AccessToken)
    (queryOptions : ConnectRequestQueryOptions number) (this : Service) :
  (Err + list Project.t) * Service :=
  let (answer, client) :=
    Client.getInvitedProjects accessToken queryOptions (_connectClient this) in
  (answer,
   {| _connectClient := client;
      effects := effects this ++ [InvitedProjectsRequest queryOptions] |}).

(** [await this._connectClient.getProjects(requestContext, queryOptions)] *)
Definition requestProjects (accessToken : AccessToken)
    (queryOptions : ConnectRequestQueryOptions number) (this : Service) :
  (Err + list Project.t) * Service :=
  let (answer, client) :=
    Client.getProjects accessToken queryOptions (_connectClient this) in
  (answer,
   {| _connectClient := client;
      effects := effects this ++ [ProjectsRequest queryOptions] |}).

(** The loop over [projectList]. *)
Fixpoint pushAll (projectList : list Project.t) (projects : list ProjectInfo)
    (this : Service) : list ProjectInfo * Service :=
  match projectList with
  | [] => (projects, this)
  | thisProject :: rest =>
      let (info, this') := createProjectInfo thisProject this in
      pushAll rest (projects ++ [info]) this'
  end.

(** The query options the body of [try] has when it asks for the
    projects. *)
Definition scoped (projectScope : ProjectScope)
    (queryOptions : ConnectRequestQueryOptions number) :
  ConnectRequestQueryOptions number :=
  if scope_eqb projectScope Favorites then
    {| select := select queryOptions; top := top queryOptions;
       skip := skip queryOptions; filter := filter queryOptions;
       isFavorite := Some true; isMRU := isMRU queryOptions |}
  else if scope_eqb projectScope MostRecentlyUsed then
    {| select := select queryOptions; top := top queryOptions;
       skip := skip queryOptions; filter := filter queryOptions;
       isFavorite := isFavorite queryOptions; isMRU := Some true |}
  else queryOptions.

(** The object literal [queryOptions] starts as. *)
Definition newQueryOptions (top skip : number) (filter : option string) :
  ConnectRequestQueryOptions number :=
  {| select := "*"; top := top; skip := skip; filter := filter;
     isFavorite := None; isMRU := None |}.

(** [DefaultProjectServices.getProjects]: the projects, or the error the
    promise is rejected with. *)
Definition getProjects (accessToken : AccessToken)
    (projectScope : ProjectScope) (top skip : number) (filter : option string)
    (this : Service) : (Err + list ProjectInfo) * Service :=
  let queryOptions := newQueryOptions top skip filter in
  let (attempt, this') :=
    (* try *)
    let (invited, this0) :=
      if scope_eqb projectScope Invited then
        requestInvitedProjects accessToken queryOptions this
      else (inr [], this) in
    match invited with
    | inl e => (inl e, this0)
    | inr _ => requestProjects accessToken (scoped projectScope queryOptions) this0
    end in
  match attempt with
  | inl e => (inl e, perform (Alert e) this')          (* catch *)
  | inr projectList =>
      let (projects, this'') := pushAll projectList [] this' in
      (inr projects, this'')
  end.

End Service.

Arguments Service : clear implicits.

(** A client to run the service on: the server holds two lists of projects
    and fails every request that asks for fewer than one project. *)
Module Fixed.

Record Server : Type := {
  invited : list Project.t;
  projects : list Project.t;
  requests : nat
}.

Definition answer (ps : list Project.t) (q : ConnectRequestQueryOptions Z)
    (s : Server) : (string + list Project.t) * Server :=
  let s' := {| invited := invited s; projects := projects s;
               requests := S (requests s) |} in
  if (top q <? 1)%Z then (inl "bad request"%string, s')
  else (inr (firstn (Z.to_nat (top q)) ps), s').

#[export] Instance fixedClient :
  Client.ConnectClient Z unit string Server := {
  Client.getInvitedProjects _ q s := answer (invited s) q s;
  Client.getProjects _ q s := answer (projects s) q s
}.

Definition plant : Project.t :=
  {| Project.name := Some "Plant"%string; Project.number := None;
     Project.wsgId := "p-1"%string |}.

Definition unnamed : Project.t :=
  {| Project.name := Some ""%string; Project.number := Some "17"%string;
     Project.wsgId := "p-2"%string |}.

Definition bridge : Project.t :=
  {| Project.name := Some "Bridge"%string; Project.number := Some "3"%string;
     Project.wsgId := "p-3"%string |}.

Definition server : Server :=
  {| invited := [bridge]; projects := [plant; unnamed]; requests := 0 |}.

Definition service : Service Z string Server :=
  {| _connectClient := server; effects := [] |}.

End Fixed.

End DefaultProjectServices.

(** * Properties of the controller *)

Section CalculatorFacts.

Context {number : Type} `{JSNumber number}.
Context {E : Type} `{CalculatorEngine number E}.
Context {Host : Type}.

#[local] Abbreviation Calc := (Calculator number E Host).
#[local] Abbreviation Props := (CalculatorProps number Host).

Implicit Types (this : Calc) (p : Props) (operator : CalculatorOperator).
Implicit Types (key keyChar : string).

(** ** How each method changes the instance *)

Ltac unfold_methods :=
  unfold exec, _handleOk, _handleCancel, _ok, _cancel, _clearAll,
    _onValueButtonClick, _onOperatorButtonClick, _mainDivFocus,
    engine_processValue, engine_processOperator, engine_clearAll,
    engine_result, setState, get_equalsClicked, set_equalsClicked,
    get_props, call_onOk, call_onCancel, bind, ret, logCall, withEngine,
    withHost, focusCalls, dispatched.

Lemma exec_bind {A B : Type} (m : M number E Host A) (k : A -> M number E Host B) this :
  exec (bind m k) this = exec (k (fst (m this))) (exec m this).
Proof. unfold exec, bind. destruct (m this); reflexivity. Qed.

Lemma onValueButtonClick_run keyChar this :
  _onValueButtonClick keyChar this =
  (tt, {| props := props this;
          engine := fst (processValue keyChar (engine this));
          displayValue := snd (processValue keyChar (engine this));
          _equalsClicked := _equalsClicked this;
          _mainDiv := _mainDiv this;
          host := host this;
          calls := calls this ++ EngineProcessValue keyChar :: focusCalls this |}).
Proof.
  unfold_methods.
  destruct (processValue keyChar (engine this)) as [e d]; simpl.
  destruct (_mainDiv this); simpl; rewrite <- ?app_assoc; reflexivity.
Qed.

Lemma onOperatorButtonClick_run operator this :
  _onOperatorButtonClick operator this =
  (tt, {| props := props this;
          engine := fst (processOperator (dispatched operator this) (engine this));
          displayValue := snd (processOperator (dispatched operator this) (engine this));
          _equalsClicked :=
            if dispatched operator this === Equals then true
            else if dispatched operator this === ClearAll then false
            else _equalsClicked this;
          _mainDiv := _mainDiv this;
          host := host this;
          calls := calls this
                   ++ EngineProcessOperator (dispatched operator this)
                   :: focusCalls this |}).
Proof.
  unfold_methods.
  destruct operator, (_equalsClicked this); simpl;
    match goal with
    | |- context [processOperator ?o ?e] => destruct (processOperator o e)
    end; simpl;
    destruct (_mainDiv this); simpl; rewrite <- ?app_assoc; reflexivity.
Qed.

Lemma ok_run this :
  _ok this =
  (tt, {| props := props this;
          engine := clearAll (engine this);
          displayValue := displayValue this;
          _equalsClicked := false;
          _mainDiv := _mainDiv this;
          host := match onOk (props this) with
                  | Some f => f (result (engine this)) (host this)
                  | None => host this
                  end;
          calls := calls this ++ okCalls this ++ [EngineClearAll] |}).
Proof.
  unfold okCalls; unfold_methods.
  destruct (onOk (props this)); simpl; rewrite <- ?app_assoc; reflexivity.
Qed.

Lemma cancel_run this :
  _cancel this =
  (tt, {| props := props this;
          engine := clearAll (engine this);
          displayValue := displayValue this;
          _equalsClicked := false;
          _mainDiv := _mainDiv this;
          host := match onCancel (props this) with
                  | Some g => g (host this)
                  | None => host this
                  end;
          calls := calls this ++ cancelCalls this ++ [EngineClearAll] |}).
Proof.
  unfold cancelCalls; unfold_methods.
  destruct (onCancel (props this)); simpl; rewrite <- ?app_assoc; reflexivity.
Qed.

Lemma dispatched_cases operator this :
  (operator = Clear /\ _equalsClicked this = true /\
   dispatched operator this = ClearAll) \/
  dispatched operator this = operator.
Proof.
  unfold dispatched.
  destruct operator, (_equalsClicked this); simpl; auto.
Qed.

(** ** Commit and cancel *)

(** C1 (as amended): after [_ok] (commit) and after [_cancel], the engine has
    been cleared by one call of [clearAll], which is the last call made,
    [_equalsClicked] (the spec's resultFinalized) is false, and
    [displayValue] is what it was before the call: neither method sets the
    React state. *)
Theorem commit_cancel_reset this :
  (engine (exec _ok this) = clearAll (engine this) /\
   calls (exec _ok this) = calls this ++ okCalls this ++ [EngineClearAll] /\
   _equalsClicked (exec _ok this) = false /\
   displayValue (exec _ok this) = displayValue this) /\
  (engine (exec _cancel this) = clearAll (engine this) /\
   calls (exec _cancel this) =
     calls this ++ cancelCalls this ++ [EngineClearAll] /\
   _equalsClicked (exec _cancel this) = false /\
   displayValue (exec _cancel this) = displayValue this).
Proof.
  unfold exec. rewrite ok_run, cancel_run. simpl. repeat split.
Qed.

(** C7: [_ok] calls the commit callback, when there is one, once and with
    the engine's [result] as it is before the engine is cleared; [_cancel]
    calls the cancel callback, when there is one, once and with no
    argument; without the callback the host is left alone; and in all four
    cases the engine is cleared and [_equalsClicked] is set to false. *)
Theorem commit_cancel_callbacks this :
  (forall f, onOk (props this) = Some f ->
     host (exec _ok this) = f (result (engine this)) (host this) /\
     calls (exec _ok this) =
       calls this ++ [HostOnOk (result (engine this)); EngineClearAll]) /\
  (forall g, onCancel (props this) = Some g ->
     host (exec _cancel this) = g (host this) /\
     calls (exec _cancel this) =
       calls this ++ [HostOnCancel; EngineClearAll]) /\
  (onOk (props this) = None ->
     host (exec _ok this) = host this /\
     calls (exec _ok this) = calls this ++ [EngineClearAll]) /\
  (onCancel (props this) = None ->
     host (exec _cancel this) = host this /\
     calls (exec _cancel this) = calls this ++ [EngineClearAll]) /\
  (engine (exec _ok this) = clearAll (engine this) /\
   _equalsClicked (exec _ok this) = false) /\
  (engine (exec _cancel this) = clearAll (engine this) /\
   _equalsClicked (exec _cancel this) = false).
Proof.
  unfold exec. rewrite ok_run, cancel_run. unfold okCalls, cancelCalls. simpl.
  split; [|split; [|split; [|split; [|split]]]].
  - intros f Hf. rewrite Hf. split; reflexivity.
  - intros g Hg. rewrite Hg. split; reflexivity.
  - intros Hnone. rewrite Hnone. split; reflexivity.
  - intros Hnone. rewrite Hnone. split; reflexivity.
  - split; reflexivity.
  - split; reflexivity.
Qed.

(** ** Operators and the Clear tie-break *)

(** C2: [_onOperatorButtonClick] passes [ClearAll] to the engine when it is
    given [Clear] while [_equalsClicked] is true; it passes every operator
    other than [Clear] unchanged, whatever [_equalsClicked] is; and it
    passes [Clear] as [Clear] while [_equalsClicked] is false.  In each case
    that is its one engine call, and the display is what the call returns. *)
Theorem clear_promotion operator this :
  let sent o :=
    calls (exec (_onOperatorButtonClick operator) this) =
      calls this ++ EngineProcessOperator o :: focusCalls this /\
    engine (exec (_onOperatorButtonClick operator) this) =
      fst (processOperator o (engine this)) /\
    displayValue (exec (_onOperatorButtonClick operator) this) =
      snd (processOperator o (engine this)) in
  (operator = Clear -> _equalsClicked this = true -> sent ClearAll) /\
  (operator <> Clear -> sent operator) /\
  (operator = Clear -> _equalsClicked this = false -> sent Clear).
Proof.
  cbv zeta. unfold exec. rewrite onOperatorButtonClick_run. simpl.
  unfold dispatched.
  split; [|split].
  - intros -> ->. repeat split.
  - intros Hop. destruct operator; try congruence; repeat split.
  - intros -> ->. repeat split.
Qed.

(** C3: when [_onOperatorButtonClick] has passed the operator [d] to the
    engine, [_equalsClicked] is true if [d] is [Equals], false if [d] is
    [ClearAll] (which it is for a [Clear] given while [_equalsClicked] was
    true), and what it was for any other [d]; [_onValueButtonClick] leaves
    [_equalsClicked] as it was. *)
Theorem equalsClicked_update operator this :
  (forall d,
     calls (exec (_onOperatorButtonClick operator) this) =
       calls this ++ EngineProcessOperator d :: focusCalls this ->
     (d = Equals ->
      _equalsClicked (exec (_onOperatorButtonClick operator) this) = true) /\
     (d = ClearAll ->
      _equalsClicked (exec (_onOperatorButtonClick operator) this) = false) /\
     (d <> Equals -> d <> ClearAll ->
      _equalsClicked (exec (_onOperatorButtonClick operator) this) =
        _equalsClicked this)) /\
  (operator = Clear -> _equalsClicked this = true ->
   _equalsClicked (exec (_onOperatorButtonClick operator) this) = false) /\
  (forall keyChar,
     _equalsClicked (exec (_onValueButtonClick keyChar) this) =
       _equalsClicked this).
Proof.
  unfold exec. rewrite onOperatorButtonClick_run. simpl. split; [|split].
  - intros d Hd. apply app_inv_head in Hd. injection Hd as Hd. rewrite Hd.
    repeat split.
    + intros ->. reflexivity.
    + intros ->. reflexivity.
    + intros H1 H2. destruct d; simpl; congruence.
  - intros -> Hf. unfold dispatched. rewrite Hf. reflexivity.
  - intros keyChar. rewrite onValueButtonClick_run. reflexivity.
Qed.

(** ** The keyboard's special keys *)

Lemma calls_ok this :
  calls (exec _ok this) = calls this ++ okCalls this ++ [EngineClearAll].
Proof. unfold exec. rewrite ok_run. reflexivity. Qed.

Lemma calls_operator operator this :
  calls (exec (_onOperatorButtonClick operator) this) =
  calls this ++ EngineProcessOperator (dispatched operator this)
  :: focusCalls this.
Proof. unfold exec. rewrite onOperatorButtonClick_run. reflexivity. Qed.

Lemma handleKeyDown_Enter this :
  exec (_handleKeyDown "Enter") this =
  if _equalsClicked this then exec _ok this
  else exec _ok (exec (_onOperatorButtonClick Equals) this).
Proof.
  change (_handleKeyDown "Enter")
    with (bind (@get_equalsClicked number E Host)
            (fun b => bind (if negb b then _onOperatorButtonClick Equals
                            else ret tt)
                        (fun _ => _ok))).
  rewrite exec_bind. unfold get_equalsClicked at 1 2. simpl fst.
  change (exec (fun this0 : Calc => (_equalsClicked this0, this0)) this)
    with this.
  destruct (_equalsClicked this); simpl negb; cbv iota; rewrite exec_bind;
    reflexivity.
Qed.

(** C4: on [Enter] with [_equalsClicked] false the handler is
    [_onOperatorButtonClick Equals] followed by [_ok]: [Equals] goes to the
    engine first, then commit runs.  With [_equalsClicked] true it is [_ok]
    alone, and no operator goes to the engine.  Either way the calls end
    with those of [_ok]. *)
Theorem enter_key this :
  (_equalsClicked this = false ->
     exec (_handleKeyDown "Enter") this =
       exec _ok (exec (_onOperatorButtonClick Equals) this) /\
     calls (exec (_handleKeyDown "Enter") this) =
       calls this ++ EngineProcessOperator Equals :: focusCalls this
       ++ okCalls (exec (_onOperatorButtonClick Equals) this)
       ++ [EngineClearAll]) /\
  (_equalsClicked this = true ->
     exec (_handleKeyDown "Enter") this = exec _ok this /\
     calls (exec (_handleKeyDown "Enter") this) =
       calls this ++ okCalls this ++ [EngineClearAll]).
Proof.
  rewrite !handleKeyDown_Enter.
  split; intros Hf; rewrite Hf.
  - split; [reflexivity|].
    rewrite calls_ok, calls_operator. unfold dispatched. simpl.
    rewrite <- app_assoc. reflexivity.
  - split; [reflexivity|]. apply calls_ok.
Qed.

(** C5: on [Escape] the handler is [_cancel], run once, whatever
    [_equalsClicked] is: the cancel callback is called if there is one, the
    engine is cleared, and nothing else is called; no value and no operator
    goes to the engine. *)
Theorem escape_key this :
  exec (_handleKeyDown "Escape") this = exec _cancel this /\
  calls (exec (_handleKeyDown "Escape") this) =
    calls this ++ cancelCalls this ++ [EngineClearAll] /\
  (forall value,
     ~ In (EngineProcessValue value) (cancelCalls this ++ [EngineClearAll])) /\
  (forall operator,
     ~ In (EngineProcessOperator operator)
          (cancelCalls this ++ [EngineClearAll])).
Proof.
  change (_handleKeyDown "Escape") with (@_cancel number E _ Host).
  split; [reflexivity|]. split.
  - unfold exec. rewrite cancel_run. reflexivity.
  - unfold cancelCalls. split; intros x; destruct (onCancel (props this));
      simpl; intuition discriminate.
Qed.

(** ** Sequences of actions *)

Lemma exec_submitAll_app (l1 l2 : list Action) this :
  exec (submitAll (l1 ++ l2)) this =
  exec (submitAll l2) (exec (submitAll l1) this).
Proof.
  revert this. induction l1 as [|a l1 IH]; intros this; simpl.
  - reflexivity.
  - rewrite !exec_bind. apply IH.
Qed.

Lemma calls_submit (a : Action) this :
  exists added, calls (exec (submit a) this) = calls this ++ added.
Proof.
  destruct a as [keyChar|operator]; unfold exec; simpl.
  - rewrite onValueButtonClick_run. eexists; reflexivity.
  - rewrite onOperatorButtonClick_run. eexists; reflexivity.
Qed.

Lemma calls_submitAll (actions : list Action) this :
  exists added, calls (exec (submitAll actions) this) = calls this ++ added.
Proof.
  revert this. induction actions as [|a rest IH]; intros this; simpl.
  - exists []. unfold exec, ret. simpl. now rewrite app_nil_r.
  - rewrite exec_bind.
    destruct (IH (exec (submit a) this)) as [l2 H2].
    destruct (calls_submit a this) as [l1 H1].
    exists (l1 ++ l2). rewrite H2, H1, app_assoc. reflexivity.
Qed.

Lemma equalsLogged_submit (a : Action) this :
  equalsLogged this -> equalsLogged (exec (submit a) this).
Proof.
  unfold equalsLogged. intros Hinv.
  destruct a as [keyChar|operator]; unfold exec; simpl.
  - rewrite onValueButtonClick_run. simpl. intros Hf.
    apply in_or_app. left. auto.
  - rewrite onOperatorButtonClick_run. simpl.
    destruct (dispatched operator this); simpl; intros Hf;
      try discriminate; apply in_or_app;
      solve [left; auto | right; left; reflexivity].
Qed.

Lemma equalsLogged_submitAll (actions : list Action) this :
  equalsLogged this -> equalsLogged (exec (submitAll actions) this).
Proof.
  revert this. induction actions as [|a rest IH]; intros this Hinv; simpl.
  - exact Hinv.
  - rewrite exec_bind. apply IH, equalsLogged_submit, Hinv.
Qed.

Lemma equalsLogged_constructor p (e : E) (h : Host) :
  equalsLogged (constructor p e h).
Proof.
  unfold equalsLogged, constructor.
  destruct (initialValue p) as [v|]; [destruct (ToBoolean v)|];
    unfold_methods; simpl; try discriminate.
  destruct (processValue (toString v) e); simpl. discriminate.
Qed.

Lemma equalsLogged_initial p (e : E) (h : Host) (mounted : bool) :
  equalsLogged (initial p e h mounted).
Proof.
  pose proof (equalsLogged_constructor p e h) as Hc.
  unfold initial. destruct mounted; [|exact Hc].
  unfold equalsLogged, mount, componentDidMount in *. unfold_methods.
  simpl. intros Hf. apply in_or_app. left. auto.
Qed.

(** C6: run any sequence of value and operator actions on a calculator just
    constructed (mounted or not); if [Equals] never went to the engine,
    then after every prefix of the sequence [_equalsClicked] is false. *)
Theorem no_equals_never_finalized p (e : E) (h : Host) (mounted : bool)
    (actions : list Action) :
  ~ In (EngineProcessOperator Equals)
       (calls (exec (submitAll actions) (initial p e h mounted))) ->
  forall n,
    _equalsClicked (exec (submitAll (firstn n actions)) (initial p e h mounted))
    = false.
Proof.
  intros Hno n.
  destruct (_equalsClicked
              (exec (submitAll (firstn n actions)) (initial p e h mounted)))
    eqn:Hf; [|reflexivity].
  exfalso. apply Hno.
  rewrite <- (firstn_skipn n actions) at 1. rewrite exec_submitAll_app.
  destruct (calls_submitAll (skipn n actions)
              (exec (submitAll (firstn n actions)) (initial p e h mounted)))
    as [added ->].
  apply in_or_app. left.
  apply (equalsLogged_submitAll _ _ (equalsLogged_initial p e h mounted)), Hf.
Qed.

(** ** Keyboard and key pad *)

Lemma addsNo_refl operator this : addsNo operator this this.
Proof. exists []. rewrite app_nil_r. split; [reflexivity | intros []]. Qed.

Lemma addsNo_trans operator this1 this2 this3 :
  addsNo operator this1 this2 -> addsNo operator this2 this3 ->
  addsNo operator this1 this3.
Proof.
  intros [l1 [H1 N1]] [l2 [H2 N2]]. exists (l1 ++ l2). split.
  - rewrite H2, H1, app_assoc. reflexivity.
  - intros Hin. apply in_app_or in Hin. tauto.
Qed.

Lemma focusCalls_no_operator operator this :
  ~ In (EngineProcessOperator operator) (focusCalls this).
Proof.
  unfold focusCalls. destruct (_mainDiv this); simpl; intuition discriminate.
Qed.

Lemma addsNo_value operator keyChar this :
  addsNo operator this (exec (_onValueButtonClick keyChar) this).
Proof.
  unfold exec. rewrite onValueButtonClick_run. simpl.
  eexists; split; [reflexivity|]. intros [Hin|Hin]; [discriminate|].
  exact (focusCalls_no_operator _ _ Hin).
Qed.

Lemma addsNo_operator o this :
  o <> NegPos -> addsNo NegPos this (exec (_onOperatorButtonClick o) this).
Proof.
  intros Ho.
  unfold exec. rewrite onOperatorButtonClick_run. simpl.
  eexists; split; [reflexivity|]. intros [Hin|Hin].
  - injection Hin as Hin.
    destruct (dispatched_cases o this) as [[_ [_ Heq]]|Heq]; congruence.
  - exact (focusCalls_no_operator _ _ Hin).
Qed.

Lemma addsNo_ok operator this : addsNo operator this (exec _ok this).
Proof.
  exists (okCalls this ++ [EngineClearAll]). split; [apply calls_ok|].
  unfold okCalls. destruct (onOk (props this)); simpl; intuition discriminate.
Qed.

Lemma addsNo_cancel operator this : addsNo operator this (exec _cancel this).
Proof.
  exists (cancelCalls this ++ [EngineClearAll]). split.
  - unfold exec. rewrite cancel_run. reflexivity.
  - unfold cancelCalls. destruct (onCancel (props this)); simpl;
      intuition discriminate.
Qed.

(** No key of the keyboard passes [NegPos] to the engine. *)
Lemma handleKeyDown_never_NegPos key this :
  addsNo NegPos this (exec (_handleKeyDown key) this).
Proof.
  unfold _handleKeyDown.
  repeat match goal with
         | |- context [if isCase key ?labels then _ else _] =>
             destruct (isCase key labels)
         end;
    try (apply addsNo_operator; discriminate).
  - apply addsNo_value.
  - apply addsNo_cancel.
  - match goal with
    | |- addsNo _ _ ?t =>
        change t with (exec (@_handleKeyDown number E _ Host "Enter") this)
    end.
    rewrite handleKeyDown_Enter.
    destruct (_equalsClicked this).
    + apply addsNo_ok.
    + apply (addsNo_trans _ _ (exec (_onOperatorButtonClick Equals) this)).
      * apply addsNo_operator. discriminate.
      * apply addsNo_ok.
  - apply addsNo_refl.
Qed.

Lemma isCase_false key (labels : list string) :
  incl labels specKeyTable -> ~ In key specKeyTable ->
  isCase key labels = false.
Proof.
  intros Hincl Hnot. unfold isCase.
  destruct (existsb (String.eqb key) labels) eqn:Hex; [|reflexivity].
  apply existsb_exists in Hex. destruct Hex as [label [Hin Heq]].
  apply String.eqb_eq in Heq. subst label. elim Hnot. auto.
Qed.

(** C8 (as amended): every operator button of the key pad other than the
    [NegPos] button has a key of the keyboard that does exactly what a click
    on the button does, the same call of [_onOperatorButtonClick]; no key
    passes [NegPos] to the engine; and each digit has a button on the key
    pad, the key and the button both being [_onValueButtonClick] of the
    digit character. *)
Theorem keypad_keyboard_parity :
  (forall operator,
     In (OperatorButton operator) CalculatorKeyPad -> operator <> NegPos ->
     exists key, forall this,
       _handleKeyDown key this = _handleOnClick (OperatorButton operator) this /\
       _handleKeyDown key this = _onOperatorButtonClick operator this) /\
  (forall key this, addsNo NegPos this (exec (_handleKeyDown key) this)) /\
  (forall digit,
     In digit digitKeys ->
     In (ValueButton digit) CalculatorKeyPad /\
     forall this,
       _handleKeyDown digit this = _onValueButtonClick digit this /\
       _handleOnClick (ValueButton digit) this = _onValueButtonClick digit this).
Proof.
  split; [|split].
  - intros operator _ Hop.
    destruct operator;
      [ exists "a" | exists "c" | exists "Backspace" | exists "/" | exists "*"
      | exists "-" | exists "+" | exists "." | exists "=" | congruence ];
      intros this; split; reflexivity.
  - apply handleKeyDown_never_NegPos.
  - intros digit Hin. simpl in Hin.
    repeat (destruct Hin as [<-|Hin];
            [split; [simpl; tauto | intros this; split; reflexivity]|]).
    destruct Hin.
Qed.

(** C9: a key that is not in the table of the specification does nothing:
    the instance is left exactly as it was, so no call at all is made (none
    to the engine, no callback, no focus) and [displayValue] and
    [_equalsClicked] are unchanged. *)
Theorem unlisted_key_ignored key this :
  ~ In key specKeyTable ->
  _handleKeyDown key this = (tt, this) /\
  calls (exec (_handleKeyDown key) this) = calls this /\
  displayValue (exec (_handleKeyDown key) this) = displayValue this /\
  _equalsClicked (exec (_handleKeyDown key) this) = _equalsClicked this /\
  engine (exec (_handleKeyDown key) this) = engine this /\
  host (exec (_handleKeyDown key) this) = host this.
Proof.
  intros Hnot.
  assert (Hrun : _handleKeyDown key this = (tt, this)).
  { unfold _handleKeyDown.
    repeat (rewrite isCase_false;
            [ | intros l Hl; simpl in Hl; unfold specKeyTable, digitKeys;
                simpl; tauto | exact Hnot ]).
    reflexivity. }
  unfold exec. rewrite Hrun. simpl. repeat split.
Qed.

(** ** Construction *)

(** C10: without an initial value, or with a falsy one, the constructor
    leaves the engine alone and the display is "0"; with a truthy initial
    value it makes one engine call, [processValue] of the whole string
    [toString] gives for the value, and the display is what the call
    returns. *)
Theorem constructor_seed p (e : E) (h : Host) :
  (initialValue p = None \/
   (exists v, initialValue p = Some v /\ ToBoolean v = false) ->
   displayValue (constructor p e h) = "0" /\
   calls (constructor p e h) = [] /\
   engine (constructor p e h) = e) /\
  (forall v, initialValue p = Some v -> ToBoolean v = true ->
   displayValue (constructor p e h) = snd (processValue (toString v) e) /\
   calls (constructor p e h) = [EngineProcessValue (toString v)] /\
   engine (constructor p e h) = fst (processValue (toString v) e)).
Proof.
  unfold constructor. split.
  - intros [Hnone | [v [Hv Hfalsy]]].
    + rewrite Hnone. repeat split.
    + rewrite Hv, Hfalsy. repeat split.
  - intros v Hv Htruthy. rewrite Hv, Htruthy. unfold_methods. simpl.
    destruct (processValue (toString v) e); repeat split.
Qed.

(** * More of the controller *)

(** ** What a key does *)

Lemma isCase_true key (labels : list string) :
  isCase key labels = true <-> In key labels.
Proof.
  unfold isCase. rewrite existsb_exists. split.
  - intros [label [Hin Heq]]. apply String.eqb_eq in Heq. now subst label.
  - intros Hin. exists key. split; [exact Hin | apply String.eqb_refl].
Qed.

Lemma handleKeyDown_cases key this :
  (In key digitKeys /\
   _handleKeyDown key this = _onValueButtonClick key this) \/
  (exists operator,
     operator <> NegPos /\ In key specKeyTable /\
     closes (KeyDown key) = false /\
     _handleKeyDown key this = _onOperatorButtonClick operator this) \/
  (key = "Escape" /\ _handleKeyDown key this = _cancel this) \/
  (key = "Enter" /\
   exec (_handleKeyDown key) this =
     if _equalsClicked this then exec _ok this
     else exec _ok (exec (_onOperatorButtonClick Equals) this)) \/
  (~ In key specKeyTable /\ _handleKeyDown key this = (tt, this)).
Proof.
  unfold _handleKeyDown.
  repeat match goal with
         | |- context [if isCase key ?labels then _ else _] =>
             let Hc := fresh "Hc" in destruct (isCase key labels) eqn:Hc
         end;
    repeat match goal with
           | Hc : isCase key _ = true |- _ => apply isCase_true in Hc
           end;
    first
      [ left; split; [assumption | reflexivity]
      | right; left;
        refine (ex_intro _ _ (conj _ (conj _ (conj _ eq_refl))));
        [ discriminate
        | unfold specKeyTable, digitKeys; simpl in *; tauto
        | match goal with
          | Hc : In key _ |- _ =>
              simpl in Hc; decompose [or] Hc; subst; try reflexivity;
              contradiction
          end ]
      | right; right; left;
        match goal with
        | Hc : In key ["Escape"] |- _ => destruct Hc as [<-|[]]
        end; split; reflexivity
      | right; right; right; left;
        match goal with
        | Hc : In key ["Enter"] |- _ => destruct Hc as [<-|[]]
        end; split; [reflexivity | exact (handleKeyDown_Enter this)]
      | right; right; right; right; split; [|reflexivity];
        unfold specKeyTable, digitKeys; rewrite !in_app_iff;
        intros Hin; decompose [or] Hin;
        match goal with
        | Hl : In key _ |- _ => apply isCase_true in Hl; congruence
        end ].
Qed.

(** ** The instance follows its calls *)

Lemma tracks_refl this : tracks this this.
Proof.
  exists []. rewrite app_nil_r. simpl.
  destruct (_mainDiv this); repeat split.
Qed.

Lemma tracks_trans this1 this2 this3 :
  tracks this1 this2 -> tracks this2 this3 -> tracks this1 this3.
Proof.
  intros (l1 & Hc1 & Hr1 & Hf1 & Hp1 & Hm1 & Hn1)
         (l2 & Hc2 & Hr2 & Hf2 & Hp2 & Hm2 & Hn2).
  exists (l1 ++ l2). repeat split.
  - rewrite Hc2, Hc1, app_assoc. reflexivity.
  - unfold replay in *. rewrite fold_left_app, <- Hr1. exact Hr2.
  - unfold finalizedBy in *. rewrite fold_left_app, <- Hf1. exact Hf2.
  - congruence.
  - congruence.
  - rewrite !filter_app, !length_app, Hn1, Hn2, Hm1.
    destruct (_mainDiv this1); reflexivity.
Qed.

Lemma tracks_value keyChar this :
  tracks this (exec (_onValueButtonClick keyChar) this).
Proof.
  unfold exec. rewrite onValueButtonClick_run. simpl.
  exists (EngineProcessValue keyChar :: focusCalls this).
  unfold focusCalls, replay, finalizedBy.
  destruct (_mainDiv this); simpl;
    destruct (processValue keyChar (engine this)); repeat split.
Qed.

Lemma tracks_operator operator this :
  tracks this (exec (_onOperatorButtonClick operator) this).
Proof.
  unfold exec. rewrite onOperatorButtonClick_run. simpl.
  exists (EngineProcessOperator (dispatched operator this) :: focusCalls this).
  unfold focusCalls, replay, finalizedBy.
  destruct (_mainDiv this); simpl;
    destruct (processOperator (dispatched operator this) (engine this));
    repeat split.
Qed.

Lemma tracks_ok this : tracks this (exec _ok this).
Proof.
  unfold exec. rewrite ok_run. simpl.
  exists (okCalls this ++ [EngineClearAll]).
  unfold okCalls, replay, finalizedBy.
  destruct (onOk (props this)), (_mainDiv this); simpl; repeat split.
Qed.

Lemma tracks_cancel this : tracks this (exec _cancel this).
Proof.
  unfold exec. rewrite cancel_run. simpl.
  exists (cancelCalls this ++ [EngineClearAll]).
  unfold cancelCalls, replay, finalizedBy.
  destruct (onCancel (props this)), (_mainDiv this); simpl; repeat split.
Qed.

Lemma tracks_handleKeyDown key this :
  tracks this (exec (_handleKeyDown key) this).
Proof.
  destruct (handleKeyDown_cases key this)
    as [[_ Hrun] | [(operator & _ & _ & _ & Hrun) | [[_ Hrun] | [[_ Hrun]
       | [_ Hrun]]]]].
  - unfold exec. rewrite Hrun. apply tracks_value.
  - unfold exec. rewrite Hrun. apply tracks_operator.
  - unfold exec. rewrite Hrun. apply tracks_cancel.
  - rewrite Hrun. destruct (_equalsClicked this).
    + apply tracks_ok.
    + apply (tracks_trans _ (exec (_onOperatorButtonClick Equals) this)).
      * apply tracks_operator.
      * apply tracks_ok.
  - unfold exec. rewrite Hrun. apply tracks_refl.
Qed.

Lemma tracks_event (ev : UIEvent) this :
  tracks this (exec (dispatchEvent ev) this).
Proof.
  destruct ev as [key | [operator | keyChar] | |]; simpl.
  - apply tracks_handleKeyDown.
  - apply tracks_operator.
  - apply tracks_value.
  - apply tracks_ok.
  - apply tracks_cancel.
Qed.

Lemma tracks_all (events : list UIEvent) this :
  tracks this (exec (dispatchAll events) this).
Proof.
  revert this. induction events as [|ev rest IH]; intros this; simpl.
  - apply tracks_refl.
  - rewrite exec_bind.
    apply (tracks_trans _ (exec (dispatchEvent ev) this)).
    + apply tracks_event.
    + apply IH.
Qed.

Lemma tracks_initial p (e : E) (h : Host) (mounted : bool) :
  (engine (initial p e h mounted), displayValue (initial p e h mounted)) =
    replay (calls (initial p e h mounted)) (e, "0") /\
  _equalsClicked (initial p e h mounted) =
    finalizedBy (calls (initial p e h mounted)) false /\
  props (initial p e h mounted) = p /\
  _mainDiv (initial p e h mounted) = mounted.
Proof.
  unfold initial, constructor, mount, componentDidMount, replay, finalizedBy.
  destruct mounted; (destruct (initialValue p) as [v|];
    [destruct (ToBoolean v)|]); unfold_methods; simpl;
    try destruct (processValue (toString v) e) eqn:Hseed; simpl;
    rewrite ?Hseed; repeat split.
Qed.

(** X1: whatever the user has done since the calculator was constructed,
    the engine is what the calls logged have made of the engine the
    calculator was given, and the display is the string the last
    [processValue] or [processOperator] call returned ("0" if there was
    none): commits and cancels clear the engine and leave the display. *)
Theorem display_follows_engine p (e : E) (h : Host) (mounted : bool)
    (events : list UIEvent) :
  (engine (exec (dispatchAll events) (initial p e h mounted)),
   displayValue (exec (dispatchAll events) (initial p e h mounted))) =
  replay (calls (exec (dispatchAll events) (initial p e h mounted))) (e, "0").
Proof.
  destruct (tracks_all events (initial p e h mounted))
    as (added & Hcalls & Hreplay & _).
  destruct (tracks_initial p e h mounted) as (Hinit & _).
  rewrite Hcalls, Hreplay, Hinit. unfold replay.
  rewrite fold_left_app. reflexivity.
Qed.

(** X2: whatever the user has done since the calculator was constructed,
    [_equalsClicked] can be read off the calls made: it is true exactly when
    the last call among [processOperator(Equals)],
    [processOperator(ClearAll)] and [clearAll()] is the one with [Equals]. *)
Theorem equalsClicked_follows_calls p (e : E) (h : Host) (mounted : bool)
    (events : list UIEvent) :
  _equalsClicked (exec (dispatchAll events) (initial p e h mounted)) =
  finalizedBy (calls (exec (dispatchAll events) (initial p e h mounted))) false.
Proof.
  destruct (tracks_all events (initial p e h mounted))
    as (added & Hcalls & _ & Hflag & _).
  destruct (tracks_initial p e h mounted) as (_ & Hinit & _).
  rewrite Hcalls, Hflag, Hinit. unfold finalizedBy.
  rewrite fold_left_app. reflexivity.
Qed.

(** X3: no event changes the props or the ref of the main div; and of the
    calls a sequence of events adds, as many focus the main div as pass a
    value or an operator to the engine when the ref is set, and none does
    when it is not. *)
Theorem focus_once_per_action (events : list UIEvent) this :
  props (exec (dispatchAll events) this) = props this /\
  _mainDiv (exec (dispatchAll events) this) = _mainDiv this /\
  exists added,
    calls (exec (dispatchAll events) this) = calls this ++ added /\
    length (filter isFocus added) =
      (if _mainDiv this then length (filter isAction added) else 0).
Proof.
  destruct (tracks_all events this)
    as (added & Hcalls & _ & _ & Hprops & Hdiv & Hcount).
  repeat split; try assumption. exists added. split; assumption.
Qed.

(** ** Values, keys and the host *)

Lemma focusCalls_no_value value this :
  ~ In (EngineProcessValue value) (focusCalls this).
Proof.
  unfold focusCalls. destruct (_mainDiv this); simpl; intuition discriminate.
Qed.

Lemma okCalls_no_value value this :
  ~ In (EngineProcessValue value) (okCalls this ++ [EngineClearAll]).
Proof.
  unfold okCalls. destruct (onOk (props this)); simpl; intuition discriminate.
Qed.

Lemma cancelCalls_no_value value this :
  ~ In (EngineProcessValue value) (cancelCalls this ++ [EngineClearAll]).
Proof.
  unfold cancelCalls. destruct (onCancel (props this)); simpl;
    intuition discriminate.
Qed.

Lemma calls_value keyChar this :
  calls (exec (_onValueButtonClick keyChar) this) =
  calls this ++ EngineProcessValue keyChar :: focusCalls this.
Proof. unfold exec. rewrite onValueButtonClick_run. reflexivity. Qed.

Lemma calls_cancel this :
  calls (exec _cancel this) =
  calls this ++ cancelCalls this ++ [EngineClearAll].
Proof. unfold exec. rewrite cancel_run. reflexivity. Qed.

Lemma event_values_digits (ev : UIEvent) this :
  rendered ev ->
  exists added,
    calls (exec (dispatchEvent ev) this) = calls this ++ added /\
    forall value, In (EngineProcessValue value) added -> In value digitKeys.
Proof.
  intros Hev.
  assert (Hvalue : forall keyChar, In keyChar digitKeys ->
            exists added,
              calls (exec (_onValueButtonClick keyChar) this) =
                calls this ++ added /\
              forall value,
                In (EngineProcessValue value) added -> In value digitKeys).
  { intros keyChar Hdigit. eexists. split; [apply calls_value|].
    intros value [Heq|Hin].
    - injection Heq as <-. exact Hdigit.
    - elim (focusCalls_no_value _ _ Hin). }
  assert (Hoperator : forall operator,
            exists added,
              calls (exec (_onOperatorButtonClick operator) this) =
                calls this ++ added /\
              forall value,
                In (EngineProcessValue value) added -> In value digitKeys).
  { intros operator. eexists. split; [apply calls_operator|].
    intros value [Heq|Hin]; [discriminate|].
    elim (focusCalls_no_value _ _ Hin). }
  assert (Hok : forall that : Calc,
            exists added,
              calls (exec _ok that) = calls that ++ added /\
              forall value,
                In (EngineProcessValue value) added -> In value digitKeys).
  { intros that. eexists. split; [apply calls_ok|].
    intros value Hin. elim (okCalls_no_value _ _ Hin). }
  assert (Hcancel :
            exists added,
              calls (exec _cancel this) = calls this ++ added /\
              forall value,
                In (EngineProcessValue value) added -> In value digitKeys).
  { eexists. split; [apply calls_cancel|].
    intros value Hin. elim (cancelCalls_no_value _ _ Hin). }
  destruct ev as [key | [operator | keyChar] | |]; simpl in *.
  - destruct (handleKeyDown_cases key this)
      as [[Hdigit Hrun] | [(operator & _ & _ & _ & Hrun) | [[_ Hrun]
         | [[_ Hrun] | [_ Hrun]]]]].
    + unfold exec. rewrite Hrun. apply Hvalue, Hdigit.
    + unfold exec. rewrite Hrun. apply Hoperator.
    + unfold exec. rewrite Hrun. apply Hcancel.
    + rewrite Hrun. destruct (_equalsClicked this); [apply Hok|].
      destruct (Hok (exec (_onOperatorButtonClick Equals) this))
        as (l2 & Hc2 & Hd2).
      destruct (Hoperator Equals) as (l1 & Hc1 & Hd1).
      exists (l1 ++ l2). split.
      * rewrite Hc2, Hc1, app_assoc. reflexivity.
      * intros value Hin. apply in_app_or in Hin. destruct Hin; auto.
    + unfold exec. rewrite Hrun. exists []. simpl. rewrite app_nil_r.
      split; [reflexivity | intros value []].
  - apply Hoperator.
  - apply Hvalue. unfold digitKeys.
    decompose [or] Hev; try discriminate; try contradiction;
      match goal with
      | Hb : ValueButton _ = ValueButton _ |- _ => injection Hb as <-
      end; simpl; tauto.
  - apply Hok.
  - apply Hcancel.
Qed.

(** X4: the values that keys and key pad buttons make the calculator pass
    to [processValue] are the ten digit characters, one at a time; the
    decimal point and everything else goes through [processOperator]. *)
Theorem values_sent_are_digits (events : list UIEvent) this :
  Forall rendered events ->
  exists added,
    calls (exec (dispatchAll events) this) = calls this ++ added /\
    forall value, In (EngineProcessValue value) added -> In value digitKeys.
Proof.
  intros Hall. revert this.
  induction Hall as [|ev rest Hev _ IH]; intros this; simpl.
  - exists []. unfold exec, ret. simpl. rewrite app_nil_r.
    split; [reflexivity | intros value []].
  - rewrite exec_bind.
    destruct (event_values_digits ev this Hev) as (l1 & Hc1 & Hd1).
    destruct (IH (exec (dispatchEvent ev) this)) as (l2 & Hc2 & Hd2).
    exists (l1 ++ l2). split.
    + rewrite Hc2, Hc1, app_assoc. reflexivity.
    + intros value Hin. apply in_app_or in Hin.
      destruct Hin as [Hin|Hin]; [exact (Hd1 _ Hin) | exact (Hd2 _ Hin)].
Qed.

(** X5: a key press reaches the engine (it makes at least one of the calls
    [processValue], [processOperator], [clearAll]) exactly when the key is
    one of the case labels of the handler; the labels are case sensitive
    except for [a]/[A] and [c]/[C]. *)
Theorem key_reaches_engine_iff key this :
  (exists added c,
     calls (exec (_handleKeyDown key) this) = calls this ++ added /\
     In c added /\ isEngineCall c = true) <->
  In key specKeyTable.
Proof.
  destruct (handleKeyDown_cases key this)
    as [[Hdigit Hrun] | [(operator & _ & Hin & _ & Hrun) | [[-> Hrun]
       | [[-> Hrun] | [Hnot Hrun]]]]].
  - split.
    + intros _. unfold specKeyTable. apply in_or_app. left. exact Hdigit.
    + intros _. unfold exec. rewrite Hrun. fold (exec (_onValueButtonClick key) this).
      do 2 eexists. split; [apply calls_value|].
      split; [left; reflexivity | reflexivity].
  - split; [intros _; exact Hin|].
    intros _. unfold exec. rewrite Hrun.
    fold (exec (_onOperatorButtonClick operator) this).
    do 2 eexists. split; [apply calls_operator|].
    split; [left; reflexivity | reflexivity].
  - split; [intros _; unfold specKeyTable, digitKeys; simpl; tauto|].
    intros _. unfold exec. rewrite Hrun. fold (exec _cancel this).
    exists (cancelCalls this ++ [EngineClearAll]), EngineClearAll.
    split; [apply calls_cancel|].
    split; [apply in_or_app; right; left; reflexivity | reflexivity].
  - split; [intros _; unfold specKeyTable, digitKeys; simpl; tauto|].
    intros _. rewrite Hrun. destruct (_equalsClicked this).
    + exists (okCalls this ++ [EngineClearAll]), EngineClearAll.
      split; [apply calls_ok|].
      split; [apply in_or_app; right; left; reflexivity | reflexivity].
    + rewrite calls_ok, calls_operator, <- app_assoc.
      do 2 eexists. split; [reflexivity|].
      split; [left; reflexivity | reflexivity].
  - split; [|intros Hin; elim (Hnot Hin)].
    intros (added & c & Hcalls & Hin & _).
    unfold exec in Hcalls. rewrite Hrun in Hcalls. simpl in Hcalls.
    rewrite <- (app_nil_r (calls this)) in Hcalls at 1.
    apply app_inv_head in Hcalls. subst added. destruct Hin.
Qed.

(** X6: [Enter] right after [=] commits without passing [Equals] to the
    engine a second time; when the result was not finalized before, [=]
    followed by [Enter] leaves the calculator, the engine and the host
    exactly as [Enter] alone does. *)
Theorem equals_then_enter this :
  exec (_handleKeyDown "Enter") (exec (_handleKeyDown "=") this) =
    exec _ok (exec (_onOperatorButtonClick Equals) this) /\
  (_equalsClicked this = false ->
   exec (_handleKeyDown "Enter") (exec (_handleKeyDown "=") this) =
     exec (_handleKeyDown "Enter") this).
Proof.
  change (_handleKeyDown "=")
    with (@_onOperatorButtonClick number E _ Host Equals).
  assert (Hfirst :
            exec (_handleKeyDown "Enter")
              (exec (_onOperatorButtonClick Equals) this) =
            exec _ok (exec (_onOperatorButtonClick Equals) this)).
  { rewrite handleKeyDown_Enter.
    replace (_equalsClicked (exec (_onOperatorButtonClick Equals) this))
      with true; [reflexivity|].
    unfold exec. rewrite onOperatorButtonClick_run. reflexivity. }
  split; [exact Hfirst|].
  intros Hidle. rewrite Hfirst, (handleKeyDown_Enter this), Hidle.
  reflexivity.
Qed.

(** X7: after [Clear], from a key or from the button, [_equalsClicked] is
    false whatever it was, so a second [Clear] is never promoted: the
    engine gets it as [Clear]. *)
Theorem clear_then_clear this :
  _equalsClicked (exec (_onOperatorButtonClick Clear) this) = false /\
  calls (exec (_onOperatorButtonClick Clear)
           (exec (_onOperatorButtonClick Clear) this)) =
    calls (exec (_onOperatorButtonClick Clear) this)
    ++ EngineProcessOperator Clear :: focusCalls this.
Proof.
  assert (Hidle : _equalsClicked (exec (_onOperatorButtonClick Clear) this)
                  = false).
  { unfold exec. rewrite onOperatorButtonClick_run. simpl.
    unfold dispatched. destruct (_equalsClicked this); reflexivity. }
  split; [exact Hidle|].
  rewrite (calls_operator Clear (exec (_onOperatorButtonClick Clear) this)).
  unfold dispatched at 1. rewrite Hidle. simpl.
  unfold focusCalls, exec. rewrite onOperatorButtonClick_run. reflexivity.
Qed.

(** ** The host *)

Lemma quiet_refl this : quiet this this.
Proof.
  split; [reflexivity|]. exists []. rewrite app_nil_r.
  split; [reflexivity | intros c []].
Qed.

Lemma quiet_trans this1 this2 this3 :
  quiet this1 this2 -> quiet this2 this3 -> quiet this1 this3.
Proof.
  intros (Hh1 & l1 & Hc1 & Hn1) (Hh2 & l2 & Hc2 & Hn2). split.
  - congruence.
  - exists (l1 ++ l2). split.
    + rewrite Hc2, Hc1, app_assoc. reflexivity.
    + intros c Hin. apply in_app_or in Hin. destruct Hin; auto.
Qed.

Lemma focusCalls_no_host c this : In c (focusCalls this) -> isHostCall c = false.
Proof.
  unfold focusCalls. destruct (_mainDiv this); simpl; [|tauto].
  intros [<-|[]]. reflexivity.
Qed.

Lemma quiet_value keyChar this :
  quiet this (exec (_onValueButtonClick keyChar) this).
Proof.
  split.
  - unfold exec. rewrite onValueButtonClick_run. reflexivity.
  - eexists. split; [apply calls_value|].
    intros c [<-|Hin]; [reflexivity | exact (focusCalls_no_host _ _ Hin)].
Qed.

Lemma quiet_operator operator this :
  quiet this (exec (_onOperatorButtonClick operator) this).
Proof.
  split.
  - unfold exec. rewrite onOperatorButtonClick_run. reflexivity.
  - eexists. split; [apply calls_operator|].
    intros c [<-|Hin]; [reflexivity | exact (focusCalls_no_host _ _ Hin)].
Qed.

Lemma quiet_event (ev : UIEvent) this :
  closes ev = false -> quiet this (exec (dispatchEvent ev) this).
Proof.
  intros Hev. destruct ev as [key | [operator | keyChar] | |]; simpl in *;
    try discriminate.
  - destruct (handleKeyDown_cases key this)
      as [[_ Hrun] | [(operator & _ & _ & _ & Hrun) | [[-> _]
         | [[-> _] | [_ Hrun]]]]]; try discriminate.
    + unfold exec. rewrite Hrun. apply quiet_value.
    + unfold exec. rewrite Hrun. apply quiet_operator.
    + unfold exec. rewrite Hrun. apply quiet_refl.
  - apply quiet_operator.
  - apply quiet_value.
Qed.

(** X8: only the events that close the calculator (the keys [Enter] and
    [Escape], the OK and the cancel button) reach the host: a sequence of
    other keys and key pad clicks calls no callback and leaves the host's
    state as it was. *)
Theorem host_untouched_until_close (events : list UIEvent) this :
  (forall ev, In ev events -> closes ev = false) ->
  quiet this (exec (dispatchAll events) this).
Proof.
  revert this. induction events as [|ev rest IH]; intros this Hall; simpl.
  - apply quiet_refl.
  - rewrite exec_bind.
    apply (quiet_trans _ (exec (dispatchEvent ev) this)).
    + apply quiet_event, Hall. left. reflexivity.
    + apply IH. intros ev' Hin. apply Hall. right. exact Hin.
Qed.

(** X9: every closing event (the keys [Enter] and [Escape], the OK and the
    cancel button) ends with a call of the engine's [clearAll], leaves
    [_equalsClicked] false and leaves the display as the last engine call
    before it set it. *)
Theorem close_resets (ev : UIEvent) this :
  closes ev = true ->
  _equalsClicked (exec (dispatchEvent ev) this) = false /\
  (exists before,
     calls (exec (dispatchEvent ev) this) = before ++ [EngineClearAll]) /\
  (exists e', engine (exec (dispatchEvent ev) this) = clearAll e') /\
  (ev <> KeyDown "Enter" ->
   displayValue (exec (dispatchEvent ev) this) = displayValue this).
Proof.
  assert (Hok : forall that : Calc,
            _equalsClicked (exec _ok that) = false /\
            (exists before, calls (exec _ok that) = before ++ [EngineClearAll]) /\
            (exists e', engine (exec _ok that) = clearAll e') /\
            displayValue (exec _ok that) = displayValue that).
  { intros that. unfold exec. rewrite ok_run. simpl. repeat split.
    - exists (calls that ++ okCalls that). now rewrite app_assoc.
    - eexists; reflexivity. }
  assert (Hcancel :
            _equalsClicked (exec _cancel this) = false /\
            (exists before,
               calls (exec _cancel this) = before ++ [EngineClearAll]) /\
            (exists e', engine (exec _cancel this) = clearAll e') /\
            displayValue (exec _cancel this) = displayValue this).
  { unfold exec. rewrite cancel_run. simpl. repeat split.
    - exists (calls this ++ cancelCalls this). now rewrite app_assoc.
    - eexists; reflexivity. }
  intros Hev. destruct ev as [key | b | |]; simpl in *; try discriminate.
  - destruct (handleKeyDown_cases key this)
      as [[Hdigit _] | [(operator & _ & _ & Hopen & _) | [[-> Hrun]
         | [[-> Hrun] | [Hnot _]]]]].
    + exfalso. unfold digitKeys in Hdigit. simpl in Hdigit.
      decompose [or] Hdigit; subst; try discriminate; contradiction.
    + simpl in Hopen. congruence.
    + unfold exec. rewrite Hrun. fold (exec _cancel this).
      destruct Hcancel as (H1 & H2 & H3 & H4). repeat split; auto.
    + rewrite Hrun.
      destruct (_equalsClicked this).
      * destruct (Hok this) as (H1 & H2 & H3 & H4).
        repeat split; auto; intros Hne; congruence.
      * destruct (Hok (exec (_onOperatorButtonClick Equals) this))
          as (H1 & H2 & H3 & H4).
        repeat split; auto; intros Hne; congruence.
    + exfalso. change (isCase key ["Enter"; "Escape"] = true) in Hev.
      apply isCase_true in Hev. apply Hnot.
      unfold specKeyTable, digitKeys. simpl in *. tauto.
  - destruct (Hok this) as (H1 & H2 & H3 & H4). repeat split; auto.
  - destruct Hcancel as (H1 & H2 & H3 & H4). repeat split; auto.
Qed.

(** X10: a commit reads the engine before it clears it, so a second commit
    right after a commit or after a cancel hands the host the result of the
    cleared engine, not the value committed or cancelled before. *)
Theorem commit_after_reset this (f : OnCommitFunc) :
  onOk (props this) = Some f ->
  host (exec _ok (exec _ok this)) =
    f (result (clearAll (engine this))) (f (result (engine this)) (host this)) /\
  host (exec _ok (exec _cancel this)) =
    f (result (clearAll (engine this))) (host (exec _cancel this)).
Proof.
  intros Hf. unfold exec. rewrite !ok_run, cancel_run. simpl.
  rewrite Hf. split; reflexivity.
Qed.

(** ** The key pad *)

(** X11: the key pad has one button for each of the ten operators and one
    for each of the ten digits, and no other button; so a click can pass any
    operator to [_onOperatorButtonClick], and only digits to
    [_onValueButtonClick]. *)
Theorem keypad_complete :
  (forall operator, In (OperatorButton operator) CalculatorKeyPad) /\
  (forall keyChar,
     In (ValueButton keyChar) CalculatorKeyPad <-> In keyChar digitKeys) /\
  NoDup CalculatorKeyPad /\
  (forall b, In b CalculatorKeyPad ->
     forall this : Calc,
       match b with
       | OperatorButton operator =>
           _handleOnClick b this = _onOperatorButtonClick operator this
       | ValueButton keyChar =>
           In keyChar digitKeys /\
           _handleOnClick b this = _onValueButtonClick keyChar this
       end).
Proof.
  assert (Hdigits : forall keyChar,
            In (ValueButton keyChar) CalculatorKeyPad <-> In keyChar digitKeys).
  { intros keyChar. unfold digitKeys. simpl. split; intros Hin;
      decompose [or] Hin; try discriminate; try contradiction; subst;
      try match goal with
          | Hb : ValueButton _ = ValueButton _ |- _ => injection Hb as <-
          end; tauto. }
  split; [|split; [exact Hdigits|split]].
  - intros operator. destruct operator; simpl; tauto.
  - unfold CalculatorKeyPad.
    repeat (constructor; [simpl; intuition discriminate|]). constructor.
  - intros b Hin this. destruct b as [operator|keyChar]; [reflexivity|].
    split; [apply Hdigits, Hin | reflexivity].
Qed.

End CalculatorFacts.

(** * The controller on the integer engine *)

Import IntegerEngine.

(** The first scenario of the specification: 7 + 3 = shows 10, sets
    [_equalsClicked], and a commit then hands 10 to the host. *)
Example scenario_seven_plus_three :
  displayValue fresh = "0" /\
  displayValue (after ["7"; "+"; "3"; "="]) = "10" /\
  _equalsClicked (after ["7"; "+"; "3"; "="]) = true /\
  committed (host (exec _ok (after ["7"; "+"; "3"; "="]))) = [10%Z].
Proof. repeat split. Qed.

(** C1, as the claim states it, fails: after 7 and a commit the widget still
    shows "7", while the display of the cleared engine is "0"; the same
    after a cancel. *)
Lemma commit_keeps_stale_display :
  (displayValue (exec _ok (after ["7"])) = "7" /\
   display (engine (exec _ok (after ["7"]))) = "0" /\
   displayValue (exec _ok (after ["7"]))
   <> display (engine (exec _ok (after ["7"])))) /\
  (displayValue (exec _cancel (after ["7"])) = "7" /\
   display (engine (exec _cancel (after ["7"]))) = "0" /\
   displayValue (exec _cancel (after ["7"]))
   <> display (engine (exec _cancel (after ["7"])))).
Proof. repeat split; discriminate. Qed.

(** C7 at work: a commit and a cancel after 4 2 with both callbacks, and on
    the seeded calculator that has none. *)
Lemma commit_cancel_callbacks_witness :
  (host (exec _ok (after ["4"; "2"])) = record 42 (host (after ["4"; "2"])) /\
   calls (exec _ok (after ["4"; "2"])) =
     calls (after ["4"; "2"]) ++ [HostOnOk 42%Z; EngineClearAll]) /\
  (host (exec _cancel (after ["4"; "2"])) =
     countCancel (host (after ["4"; "2"])) /\
   calls (exec _cancel (after ["4"; "2"])) =
     calls (after ["4"; "2"]) ++ [HostOnCancel; EngineClearAll]) /\
  (host (exec _ok seeded) = host seeded /\
   calls (exec _ok seeded) = calls seeded ++ [EngineClearAll]) /\
  (host (exec _cancel seeded) = host seeded /\
   calls (exec _cancel seeded) = calls seeded ++ [EngineClearAll]).
Proof.
  pose proof (commit_cancel_callbacks (after ["4"; "2"])) as Hboth.
  pose proof (commit_cancel_callbacks seeded) as Hnone.
  destruct Hboth as [Hok [Hcancel _]].
  destruct Hnone as [_ [_ [Hok0 [Hcancel0 _]]]].
  split; [exact (Hok record eq_refl)|].
  split; [exact (Hcancel countCancel eq_refl)|].
  split; [exact (Hok0 eq_refl) | exact (Hcancel0 eq_refl)].
Defined.

(** C2 at work: [Clear] and [Backspace] after 7 + 3 =, and [Clear] before
    the =. *)
Lemma clear_promotion_witness :
  calls (exec (_onOperatorButtonClick Clear) (after ["7"; "+"; "3"; "="])) =
    calls (after ["7"; "+"; "3"; "="])
    ++ [EngineProcessOperator ClearAll; MainDivFocus] /\
  calls (exec (_onOperatorButtonClick Backspace) (after ["7"; "+"; "3"; "="])) =
    calls (after ["7"; "+"; "3"; "="])
    ++ [EngineProcessOperator Backspace; MainDivFocus] /\
  calls (exec (_onOperatorButtonClick Clear) (after ["7"; "+"; "3"])) =
    calls (after ["7"; "+"; "3"])
    ++ [EngineProcessOperator Clear; MainDivFocus].
Proof.
  split; [|split].
  - apply (proj1 (clear_promotion Clear (after ["7"; "+"; "3"; "="])));
      reflexivity.
  - apply (proj1 (proj2 (clear_promotion Backspace
                           (after ["7"; "+"; "3"; "="])))).
    discriminate.
  - apply (proj2 (proj2 (clear_promotion Clear (after ["7"; "+"; "3"]))));
      reflexivity.
Defined.

(** C3 at work: [Equals] after 7, then [Clear] and [Divide] after
    7 + 3 =. *)
Lemma equalsClicked_update_witness :
  _equalsClicked (exec (_onOperatorButtonClick Equals) (after ["7"])) = true /\
  _equalsClicked
    (exec (_onOperatorButtonClick Clear) (after ["7"; "+"; "3"; "="])) = false /\
  _equalsClicked
    (exec (_onOperatorButtonClick Divide) (after ["7"; "+"; "3"; "="])) = true.
Proof.
  destruct (equalsClicked_update Equals (after ["7"])) as [Hequals _].
  destruct (equalsClicked_update Clear (after ["7"; "+"; "3"; "="]))
    as [Hclear _].
  destruct (equalsClicked_update Divide (after ["7"; "+"; "3"; "="]))
    as [Hdivide _].
  split; [|split].
  - apply (Hequals Equals); reflexivity.
  - apply (Hclear ClearAll); reflexivity.
  - apply (Hdivide Divide); [reflexivity | discriminate | discriminate].
Defined.

(** C4 at work: [Enter] after 4 2, and after 7 + 3 =. *)
Lemma enter_key_witness :
  calls (exec (_handleKeyDown "Enter") (after ["4"; "2"])) =
    calls (after ["4"; "2"])
    ++ [EngineProcessOperator Equals; MainDivFocus; HostOnOk 42%Z;
        EngineClearAll] /\
  calls (exec (_handleKeyDown "Enter") (after ["7"; "+"; "3"; "="])) =
    calls (after ["7"; "+"; "3"; "="]) ++ [HostOnOk 10%Z; EngineClearAll].
Proof.
  destruct (enter_key (after ["4"; "2"])) as [Hidle _].
  destruct (enter_key (after ["7"; "+"; "3"; "="])) as [_ Hshown].
  split.
  - destruct Hidle as [_ Hcalls]; [reflexivity | exact Hcalls].
  - destruct Hshown as [_ Hcalls]; [reflexivity | exact Hcalls].
Defined.

(** C5 at work: [Escape] after 7 + 3 =, and on the seeded calculator. *)
Lemma escape_key_witness :
  calls (exec (_handleKeyDown "Escape") (after ["7"; "+"; "3"; "="])) =
    calls (after ["7"; "+"; "3"; "="]) ++ [HostOnCancel; EngineClearAll] /\
  calls (exec (_handleKeyDown "Escape") seeded) =
    calls seeded ++ [EngineClearAll].
Proof.
  split.
  - apply (escape_key (after ["7"; "+"; "3"; "="])).
  - apply (escape_key seeded).
Defined.

(** C6 at work: 7 + 3 and a Clear, observed after the third action. *)
Lemma no_equals_never_finalized_witness :
  _equalsClicked
    (exec (submitAll (firstn 3 [ValueAction "7"; OperatorAction Add;
                                ValueAction "3"; OperatorAction Clear]))
       (initial props0 cleared {| committed := []; cancelled := 0 |} true))
  = false.
Proof.
  apply (no_equals_never_finalized props0 cleared
           {| committed := []; cancelled := 0 |} true
           [ValueAction "7"; OperatorAction Add; ValueAction "3";
            OperatorAction Clear]).
  vm_compute. intuition discriminate.
Defined.

(** C8, as the claim states it, fails: the key pad has a [NegPos] button,
    and no key does what a click on it does. *)
Lemma NegPos_button_has_no_key :
  In (OperatorButton NegPos) CalculatorKeyPad /\
  ~ (forall operator,
       In (OperatorButton operator) CalculatorKeyPad ->
       exists key, forall this : Calculator Z State Host,
         _handleKeyDown key this =
         _handleOnClick (OperatorButton operator) this).
Proof.
  assert (Hin : In (OperatorButton NegPos) CalculatorKeyPad)
    by (simpl; tauto).
  split; [exact Hin|]. intros Hall.
  destruct (Hall NegPos Hin) as [key Hkey].
  destruct (handleKeyDown_never_NegPos key fresh) as [added [Hcalls Hno]].
  unfold exec in Hcalls. rewrite (Hkey fresh) in Hcalls.
  simpl in Hcalls. injection Hcalls as Hadded.
  apply Hno. rewrite <- Hadded. left. reflexivity.
Qed.

(** C8 (as amended) at work: the divide button and the button 5. *)
Lemma keypad_keyboard_parity_witness :
  (exists key, forall this : Calculator Z State Host,
     _handleKeyDown key this = _handleOnClick (OperatorButton Divide) this /\
     _handleKeyDown key this = _onOperatorButtonClick Divide this) /\
  (In (ValueButton "5") CalculatorKeyPad /\
   forall this : Calculator Z State Host,
     _handleKeyDown "5" this = _onValueButtonClick "5" this /\
     _handleOnClick (ValueButton "5") this = _onValueButtonClick "5" this).
Proof.
  split.
  - apply (proj1 keypad_keyboard_parity Divide).
    + simpl; tauto.
    + discriminate.
  - apply (proj2 (proj2 keypad_keyboard_parity) "5"). simpl; tauto.
Defined.

(** C9 at work: the keys Tab and percent. *)
Lemma unlisted_key_ignored_witness :
  _handleKeyDown "Tab" (after ["7"; "+"; "3"; "="]) =
    (tt, after ["7"; "+"; "3"; "="]) /\
  _handleKeyDown "%" seeded = (tt, seeded).
Proof.
  split.
  - apply (unlisted_key_ignored "Tab" (after ["7"; "+"; "3"; "="])).
    vm_compute. intuition discriminate.
  - apply (unlisted_key_ignored "%" seeded).
    vm_compute. intuition discriminate.
Defined.

(** C10 at work: no initial value, the initial value 0, and 42. *)
Lemma constructor_seed_witness :
  (displayValue (constructor props0 cleared (host fresh)) = "0" /\
   calls (constructor props0 cleared (host fresh)) = [] /\
   engine (constructor props0 cleared (host fresh)) = cleared) /\
  (displayValue
     (constructor {| initialValue := Some 0%Z; onOk := None; onCancel := None |}
        cleared (host fresh)) = "0" /\
   calls
     (constructor {| initialValue := Some 0%Z; onOk := None; onCancel := None |}
        cleared (host fresh)) = [] /\
   engine
     (constructor {| initialValue := Some 0%Z; onOk := None; onCancel := None |}
        cleared (host fresh)) = cleared) /\
  (displayValue seeded = "42" /\
   calls seeded = [EngineProcessValue "42"] /\
   engine seeded = withEntry 42 cleared).
Proof.
  split; [|split].
  - apply (proj1 (constructor_seed props0 cleared (host fresh))).
    left. reflexivity.
  - apply (proj1 (constructor_seed
                    {| initialValue := Some 0%Z; onOk := None;
                       onCancel := None |} cleared (host fresh))).
    right. exists 0%Z. split; reflexivity.
  - exact (proj2 (constructor_seed propsBare cleared (host fresh)) 42%Z
             eq_refl eq_refl).
Defined.

(** ** More of the controller on the integer engine *)

(** X4 at work: keys and clicks, a decimal point among them. *)
Lemma values_sent_are_digits_witness :
  exists added,
    calls (exec (dispatchAll
                   [KeyDown "1"; KeyDown "."; KeyPadClick (ValueButton "5");
                    KeyPadClick (OperatorButton NegPos); OkClick]) fresh) =
      calls fresh ++ added /\
    forall value, In (EngineProcessValue value) added -> In value digitKeys.
Proof.
  apply (values_sent_are_digits
           [KeyDown "1"; KeyDown "."; KeyPadClick (ValueButton "5");
            KeyPadClick (OperatorButton NegPos); OkClick] fresh).
  repeat constructor; simpl; tauto.
Defined.

(** X6 at work: after 4 2, the keys = and Enter against Enter alone. *)
Lemma equals_then_enter_witness :
  exec (_handleKeyDown "Enter") (exec (_handleKeyDown "=") (after ["4"; "2"])) =
  exec (_handleKeyDown "Enter") (after ["4"; "2"]).
Proof.
  apply (proj2 (equals_then_enter (after ["4"; "2"]))). reflexivity.
Defined.

(** X8 at work: 7 + 3 = and a click on the sign button. *)
Lemma host_untouched_until_close_witness :
  quiet fresh
    (exec (dispatchAll
             [KeyDown "7"; KeyDown "+"; KeyDown "3"; KeyDown "=";
              KeyPadClick (OperatorButton NegPos)]) fresh).
Proof.
  apply (host_untouched_until_close
           [KeyDown "7"; KeyDown "+"; KeyDown "3"; KeyDown "=";
            KeyPadClick (OperatorButton NegPos)] fresh).
  intros ev Hin. simpl in Hin.
  decompose [or] Hin; subst; try reflexivity; contradiction.
Defined.

(** X9 at work: Escape after 7 + 3 =. *)
Lemma close_resets_witness :
  _equalsClicked
    (exec (dispatchEvent (KeyDown "Escape")) (after ["7"; "+"; "3"; "="]))
  = false /\
  (exists before,
     calls (exec (dispatchEvent (KeyDown "Escape"))
              (after ["7"; "+"; "3"; "="])) = before ++ [EngineClearAll]) /\
  (exists e',
     engine (exec (dispatchEvent (KeyDown "Escape"))
               (after ["7"; "+"; "3"; "="])) = clearAll e') /\
  (KeyDown "Escape" <> KeyDown "Enter" ->
   displayValue (exec (dispatchEvent (KeyDown "Escape"))
                   (after ["7"; "+"; "3"; "="])) =
     displayValue (after ["7"; "+"; "3"; "="])).
Proof.
  apply (close_resets (KeyDown "Escape") (after ["7"; "+"; "3"; "="])).
  reflexivity.
Defined.

(** X10 at work: two commits after 4 2 hand the host 42 and then 0. *)
Lemma commit_after_reset_witness :
  committed (host (exec _ok (exec _ok (after ["4"; "2"])))) = [42%Z; 0%Z] /\
  committed (host (exec _ok (exec _cancel (after ["4"; "2"])))) = [0%Z].
Proof.
  destruct (commit_after_reset (after ["4"; "2"]) record eq_refl) as [H1 H2].
  split.
  - exact (f_equal committed H1).
  - exact (f_equal committed H2).
Defined.

(** X11 at work: the button 0 of the key pad. *)
Lemma keypad_complete_witness :
  In "0" digitKeys /\
  _handleOnClick (ValueButton "0") fresh = _onValueButtonClick "0" fresh.
Proof.
  apply (proj2 (proj2 (proj2 keypad_complete)) (ValueButton "0")).
  simpl; tauto.
Defined.

(** * Properties of the filterer *)

Module FiltererFacts.

Import DisplayValuePropertyDataFilterer.

Lemma startsWith_spec (s t : string) :
  startsWith s t = true <-> exists post, s = (t ++ post)%string.
Proof.
  revert s. induction t as [|c t IH]; intros s; simpl.
  - split; [intros _; exists s; reflexivity | reflexivity].
  - destruct s as [|d s]; simpl.
    + split; [discriminate | intros [post Hs]; discriminate].
    + rewrite andb_true_iff, Ascii.eqb_eq, IH. split.
      * intros [-> [post ->]]. exists post. reflexivity.
      * intros [post Hs]. injection Hs as -> ->. split; [reflexivity|].
        exists post. reflexivity.
Qed.

Lemma includes_spec (s t : string) :
  includes s t = true <-> exists pre post, s = (pre ++ t ++ post)%string.
Proof.
  induction s as [|d s IH]; simpl.
  - rewrite orb_false_r, startsWith_spec. split.
    + intros [post Hs]. exists ""%string, post. exact Hs.
    + intros (pre & post & Hs). destruct pre; [|discriminate].
      exists post. exact Hs.
  - rewrite orb_true_iff, startsWith_spec, IH. split.
    + intros [[post Hs] | (pre & post & ->)].
      * exists ""%string, post. exact Hs.
      * exists (String d pre), post. reflexivity.
    + intros (pre & post & Hs). destruct pre as [|c pre]; simpl in Hs.
      * left. exists post. exact Hs.
      * injection Hs as -> ->. right. exists pre, post. reflexivity.
Qed.

Lemma append_assoc (a b c : string) :
  ((a ++ b) ++ c = a ++ b ++ c)%string.
Proof. induction a as [|x a IH]; simpl; [reflexivity | now rewrite IH]. Qed.

Lemma includes_trans (s t u : string) :
  includes s t = true -> includes t u = true -> includes s u = true.
Proof.
  rewrite !includes_spec.
  intros (pre1 & post1 & ->) (pre2 & post2 & ->).
  exists (pre1 ++ pre2)%string, (post2 ++ post1)%string.
  now rewrite !append_assoc.
Qed.

Lemma includes_empty (t : string) :
  includes "" t = true -> t = ""%string.
Proof.
  simpl. rewrite orb_false_r. destruct t; [reflexivity | discriminate].
Qed.

Section Facts.

Context `{JSString}.

Implicit Types (this : Filterer) (node : PropertyRecord) (value : string).

Lemma filterText_set value this :
  filterText (set_filterText value this) = trim (toLowerCase value).
Proof.
  unfold set_filterText.
  destruct (String.eqb_spec (trim (toLowerCase value)) (filterText this))
    as [Heq|Hne]; simpl; [symmetry; exact Heq | reflexivity].
Qed.

(** X12: after [filterText = value] the text kept is the lower-cased,
    trimmed value, whether or not it was there already; [onFilterChanged]
    is raised once when that text differs from the one kept before and not
    at all when it is the same, so assigning the same value again changes
    nothing. *)
Theorem filterText_normalized value this :
  filterText (set_filterText value this) = trim (toLowerCase value) /\
  raised (set_filterText value this) =
    (if (trim (toLowerCase value) =? filterText this)%string
     then raised this else S (raised this)) /\
  set_filterText value (set_filterText value this) =
    set_filterText value this.
Proof.
  pose proof (filterText_set value this) as Hkept.
  split; [exact Hkept|]. split.
  - unfold set_filterText.
    destruct (trim (toLowerCase value) =? filterText this)%string;
      reflexivity.
  - unfold set_filterText at 1. rewrite Hkept, String.eqb_refl. reflexivity.
Qed.

(** X13: a filterer just created, and one whose text was set to a value
    that is empty once lower-cased and trimmed, is not active, and every
    record matches it, whatever its format and display value, without
    asking to expand its parents. *)
Theorem blank_filter_matches_all :
  (forall node,
     matchesFilter node create =
       {| matchesFilter_result := true; shouldExpandNodeParents := None |}) /\
  (forall value this node,
     trim (toLowerCase value) = ""%string ->
     isActive (set_filterText value this) = false /\
     matchesFilter node (set_filterText value this) =
       {| matchesFilter_result := true; shouldExpandNodeParents := None |}).
Proof.
  split; [reflexivity|]. intros value this node Hblank.
  assert (Hidle : isActive (set_filterText value this) = false).
  { unfold isActive.
    rewrite (filterText_set value this), Hblank.
    reflexivity. }
  split; [exact Hidle|]. unfold matchesFilter. rewrite Hidle. reflexivity.
Qed.

Lemma matches_when_active node this :
  isActive this = true ->
  matchesFilter_result (matchesFilter node this) = true <->
  valueFormat (value node) = Primitive /\
  exists text,
    displayValue (value node) = Some text /\
    includes (toLowerCase text) (filterText this) = true.
Proof.
  intros Hactive. unfold matchesFilter. rewrite Hactive. simpl.
  destruct (valueFormat (value node)); simpl;
    try (split; [discriminate | intros [Hf _]; discriminate]).
  destruct (displayValue (value node)) as [text|].
  - destruct (includes (toLowerCase text) (filterText this)) eqn:Hinc; simpl.
    + split; [|reflexivity].
      intros _. split; [reflexivity|]. exists text. split; [reflexivity|].
      exact Hinc.
    + split; [discriminate|].
      intros [_ (text' & Htext & Hinc')]. injection Htext as <-. congruence.
  - destruct (includes "" (filterText this)) eqn:Hinc; simpl.
    + apply includes_empty in Hinc. unfold isActive in Hactive.
      rewrite Hinc in Hactive. discriminate.
    + split; [discriminate|].
      intros [_ (text' & Htext & _)]. discriminate.
Qed.

(** X14: an active filterer matches exactly the primitive records that
    have a display value whose lower-cased text contains the filter text;
    a record of another format and a record without display value never
    match; and a match always asks to expand the parents of the node,
    while a record that does not match never does. *)
Theorem active_filter_matches node this :
  isActive this = true ->
  (matchesFilter_result (matchesFilter node this) = true <->
   valueFormat (value node) = Primitive /\
   exists text,
     displayValue (value node) = Some text /\
     includes (toLowerCase text) (filterText this) = true) /\
  (shouldExpandNodeParents (matchesFilter node this) =
     if matchesFilter_result (matchesFilter node this) then Some true
     else None).
Proof.
  intros Hactive. split; [exact (matches_when_active node this Hactive)|].
  unfold matchesFilter. rewrite Hactive. simpl.
  destruct (valueFormat (value node)); simpl; try reflexivity.
  destruct (includes _ (filterText this)); reflexivity.
Qed.

(** X15: making the filter text shorter never loses a match: a record that
    matches a filterer also matches every filterer whose text is a part of
    the first one's text. *)
Theorem shorter_text_keeps_matches node this this' :
  includes (filterText this) (filterText this') = true ->
  matchesFilter_result (matchesFilter node this) = true ->
  matchesFilter_result (matchesFilter node this') = true.
Proof.
  intros Hpart Hmatch.
  destruct (isActive this') eqn:Hactive';
    [|unfold matchesFilter; rewrite Hactive'; reflexivity].
  destruct (isActive this) eqn:Hactive.
  - apply (matches_when_active node this Hactive) in Hmatch.
    apply (matches_when_active node this' Hactive').
    destruct Hmatch as [Hformat (text & Htext & Hinc)].
    split; [exact Hformat|]. exists text. split; [exact Htext|].
    exact (includes_trans _ _ _ Hinc Hpart).
  - unfold isActive in Hactive, Hactive'.
    apply negb_false_iff, String.eqb_eq in Hactive.
    rewrite Hactive in Hpart. apply includes_empty in Hpart.
    rewrite Hpart in Hactive'. discriminate.
Qed.

End Facts.

End FiltererFacts.

(** * Properties of the project service *)

Module ProjectServicesFacts.

Import DefaultProjectServices.

Section Facts.

Context {number AccessToken Err C : Type}.
Context `{Client.ConnectClient number AccessToken Err C}.

#[local] Abbreviation Svc := (Service number Err C).

Implicit Types (this : Svc) (projectScope : ProjectScope).
Implicit Types (accessToken : AccessToken) (top skip : number).
Implicit Types (filter : option string) (e : Err).

Lemma pushAll_run (projectList : list Project.t) (projects : list ProjectInfo)
    this :
  pushAll projectList projects this =
  (projects ++ map newProjectInfo projectList,
   {| _connectClient := _connectClient this;
      effects := effects this ++ map traceOf projectList |}).
Proof.
  revert projects this.
  induction projectList as [|p rest IH]; intros projects this; simpl.
  - rewrite !app_nil_r. destruct this; reflexivity.
  - rewrite IH. simpl. rewrite <- !app_assoc. reflexivity.
Qed.

Lemma scope_eqb_Invited projectScope :
  projectScope <> Invited -> scope_eqb projectScope Invited = false.
Proof. destruct projectScope; intros Hne; try reflexivity; congruence. Qed.

(** X16: for a scope other than [Invited], when the client answers the
    request with a list of projects, [getProjects] returns one
    [ProjectInfo] for each project, in the same order, each [NotRead], with
    the project's [wsgId] and with its name and number, the empty string
    standing for one that is missing; it makes that one request and logs
    one trace for each project. *)
Theorem getProjects_lists_answer accessToken projectScope top skip filter this
    (projectList : list Project.t) (client : C) :
  projectScope <> Invited ->
  Client.getProjects accessToken
    (scoped projectScope (newQueryOptions top skip filter))
    (_connectClient this) = (inr projectList, client) ->
  getProjects accessToken projectScope top skip filter this =
    (inr (map newProjectInfo projectList),
     {| _connectClient := client;
        effects :=
          effects this
          ++ ProjectsRequest
               (scoped projectScope (newQueryOptions top skip filter))
          :: map traceOf projectList |}) /\
  length (map newProjectInfo projectList) = length projectList /\
  Forall (fun info => readStatus info = NotRead)
    (map newProjectInfo projectList).
Proof.
  intros Hscope Hanswer. split; [|split].
  - unfold getProjects. rewrite (scope_eqb_Invited _ Hscope).
    cbv beta iota. unfold requestProjects. rewrite Hanswer, pushAll_run.
    simpl. rewrite <- app_assoc. reflexivity.
  - apply length_map.
  - apply Forall_forall. intros info Hin. apply in_map_iff in Hin.
    destruct Hin as [p [<- _]]. reflexivity.
Qed.

(** X17: for the scope [Invited], [getProjects] first asks the client for
    the invited projects and, when that request succeeds, drops its answer:
    it goes on exactly as it does for the scope [All], asking for the
    projects with neither [isFavorite] nor [isMRU] set, and returns those. *)
Theorem invited_answer_dropped accessToken top skip filter this
    (invitedList : list Project.t) (client : C) :
  Client.getInvitedProjects accessToken (newQueryOptions top skip filter)
    (_connectClient this) = (inr invitedList, client) ->
  getProjects accessToken Invited top skip filter this =
  getProjects accessToken All top skip filter
    {| _connectClient := client;
       effects :=
         effects this
         ++ [InvitedProjectsRequest (newQueryOptions top skip filter)] |}.
Proof.
  intros Hinvited. unfold getProjects, requestInvitedProjects. simpl.
  rewrite Hinvited. reflexivity.
Qed.

(** X18: when a request throws, [getProjects] alerts the error and rejects
    with it, creating no project info and logging no trace; when the
    request for the invited projects throws, the projects are not
    requested at all. *)
Theorem getProjects_rejects accessToken projectScope top skip filter this e
    (client : C) :
  (projectScope <> Invited ->
   Client.getProjects accessToken
     (scoped projectScope (newQueryOptions top skip filter))
     (_connectClient this) = (inl e, client) ->
   getProjects accessToken projectScope top skip filter this =
     (inl e,
      {| _connectClient := client;
         effects :=
           effects this
           ++ [ProjectsRequest
                 (scoped projectScope (newQueryOptions top skip filter));
               Alert e] |})) /\
  (Client.getInvitedProjects accessToken (newQueryOptions top skip filter)
     (_connectClient this) = (inl e, client) ->
   getProjects accessToken Invited top skip filter this =
     (inl e,
      {| _connectClient := client;
         effects :=
           effects this
           ++ [InvitedProjectsRequest (newQueryOptions top skip filter);
               Alert e] |})).
Proof.
  split.
  - intros Hscope Hanswer.
    unfold getProjects. rewrite (scope_eqb_Invited _ Hscope).
    cbv beta iota. unfold requestProjects. rewrite Hanswer.
    unfold perform. simpl. rewrite <- app_assoc. reflexivity.
  - intros Hinvited. unfold getProjects, requestInvitedProjects. simpl.
    rewrite Hinvited. unfold perform. simpl. rewrite <- app_assoc.
    reflexivity.
Qed.

Lemma traces_no_request (projectList : list Project.t)
    (q : ConnectRequestQueryOptions number) :
  ~ In (ProjectsRequest q) (map (@traceOf number Err) projectList).
Proof.
  intros Hin. apply in_map_iff in Hin. destruct Hin as [p [Hp _]].
  discriminate.
Qed.

(** X19: whatever the client answers, a request for the projects that
    [getProjects] makes selects everything and carries the [top], [skip]
    and [filter] it was given; [isFavorite] is set exactly for the scope
    [Favorites] and [isMRU] exactly for [MostRecentlyUsed], never both. *)
Theorem projects_request_options accessToken projectScope top skip filter this :
  exists added,
    effects (snd (getProjects accessToken projectScope top skip filter this)) =
      effects this ++ added /\
    forall q,
      In (ProjectsRequest q) added ->
      select q = "*"%string /\
      DefaultProjectServices.top q = top /\
      DefaultProjectServices.skip q = skip /\
      DefaultProjectServices.filter q = filter /\
      (isFavorite q = Some true <-> projectScope = Favorites) /\
      (isMRU q = Some true <-> projectScope = MostRecentlyUsed) /\
      (isFavorite q = None \/ isMRU q = None).
Proof.
  assert (Hoptions :
            forall q, q = scoped projectScope (newQueryOptions top skip filter) ->
              select q = "*"%string /\
              DefaultProjectServices.top q = top /\
              DefaultProjectServices.skip q = skip /\
              DefaultProjectServices.filter q = filter /\
              (isFavorite q = Some true <-> projectScope = Favorites) /\
              (isMRU q = Some true <-> projectScope = MostRecentlyUsed) /\
              (isFavorite q = None \/ isMRU q = None)).
  { intros q ->. destruct projectScope; simpl;
      repeat split; try discriminate; try reflexivity; auto. }
  assert (Hrequest :
            forall that : Svc,
            exists added,
              effects
                (snd (let (attempt, this') :=
                        requestProjects accessToken
                          (scoped projectScope
                             (newQueryOptions top skip filter)) that in
                      match attempt with
                      | inl e => (inl e, perform (Alert e) this')
                      | inr projectList =>
                          let (projects, this'') :=
                            pushAll projectList [] this' in
                          (inr projects, this'')
                      end)) = effects that ++ added /\
              forall q, In (ProjectsRequest q) added ->
                        q = scoped projectScope
                              (newQueryOptions top skip filter)).
  { intros that. unfold requestProjects.
    destruct (Client.getProjects accessToken _ (_connectClient that))
      as [[e|projectList] client].
    - unfold perform. simpl. rewrite <- app_assoc. eexists.
      split; [reflexivity|].
      intros q [Hq|[Hq|[]]]; [injection Hq as <-; reflexivity | discriminate].
    - rewrite pushAll_run. simpl. rewrite <- app_assoc. eexists.
      split; [reflexivity|].
      intros q [Hq|Hq]; [injection Hq as <-; reflexivity|].
      elim (traces_no_request _ _ Hq). }
  unfold getProjects.
  destruct (scope_eqb projectScope Invited).
  - unfold requestInvitedProjects.
    destruct (Client.getInvitedProjects accessToken _ (_connectClient this))
      as [[e|invitedList] client].
    + unfold perform. simpl. rewrite <- app_assoc. eexists.
      split; [reflexivity|].
      intros q [Hq|[Hq|[]]]; discriminate.
    + destruct (Hrequest
                  {| _connectClient := client;
                     effects :=
                       effects this
                       ++ [InvitedProjectsRequest
                             (newQueryOptions top skip filter)] |})
        as (added & Hadded & Hq).
      exists (InvitedProjectsRequest (newQueryOptions top skip filter)
              :: added).
      split.
      * rewrite Hadded. simpl. rewrite <- app_assoc. reflexivity.
      * intros q [Hin|Hin]; [discriminate|]. apply Hoptions, Hq, Hin.
  - destruct (Hrequest this) as (added & Hadded & Hq).
    exists added. split; [exact Hadded|].
    intros q Hin. apply Hoptions, Hq, Hin.
Qed.

End Facts.

End ProjectServicesFacts.

(** * The filterer and the project service at work *)

Module FiltererRuns.

Import DisplayValuePropertyDataFilterer DisplayValuePropertyDataFilterer.Ascii7.
Import FiltererFacts.

(** X13 at work: a filter text of three spaces. *)
Lemma blank_filter_matches_all_witness :
  isActive (set_filterText "   " (set_filterText "Pipe" create)) = false /\
  matchesFilter (primitive None)
    (set_filterText "   " (set_filterText "Pipe" create)) =
    {| matchesFilter_result := true; shouldExpandNodeParents := None |}.
Proof.
  apply (proj2 blank_filter_matches_all "   "%string
           (set_filterText "Pipe" create) (primitive None)).
  reflexivity.
Defined.

(** X14 at work: the text [Pipe Length] against a pipe's total length. *)
Lemma active_filter_matches_witness :
  (matchesFilter_result
     (matchesFilter (primitive (Some "Total PIPE length (m)"%string))
        (set_filterText "  Pipe Length " create)) = true <->
   valueFormat (value (primitive (Some "Total PIPE length (m)"%string)))
   = Primitive /\
   exists text,
     displayValue (value (primitive (Some "Total PIPE length (m)"%string)))
     = Some text /\
     includes (toLowerCase text)
       (filterText (set_filterText "  Pipe Length " create)) = true) /\
  shouldExpandNodeParents
    (matchesFilter (primitive (Some "Total PIPE length (m)"%string))
       (set_filterText "  Pipe Length " create)) =
    (if matchesFilter_result
          (matchesFilter (primitive (Some "Total PIPE length (m)"%string))
             (set_filterText "  Pipe Length " create))
     then Some true else None).
Proof.
  apply (active_filter_matches
           (primitive (Some "Total PIPE length (m)"%string))
           (set_filterText "  Pipe Length " create)).
  reflexivity.
Defined.

(** X15 at work: from the text [pipe length] to the text [pipe]. *)
Lemma shorter_text_keeps_matches_witness :
  matchesFilter_result
    (matchesFilter (primitive (Some "Total PIPE length (m)"%string))
       (set_filterText "pipe" create)) = true.
Proof.
  apply (shorter_text_keeps_matches
           (primitive (Some "Total PIPE length (m)"%string))
           (set_filterText "pipe length" create)
           (set_filterText "pipe" create)); reflexivity.
Defined.

End FiltererRuns.

Module ProjectServicesRuns.

Import DefaultProjectServices DefaultProjectServices.Fixed.
Import ProjectServicesFacts.

(** X16 at work: the favorites, ten at most, of a server with two
    projects, one without number and one with an empty name. *)
Lemma getProjects_lists_answer_witness :
  fst (getProjects tt Favorites 10%Z 0%Z None service) =
    inr [ {| name := "Plant"; projectNumber := ""; wsgId := "p-1";
             readStatus := NotRead |};
          {| name := ""; projectNumber := "17"; wsgId := "p-2";
             readStatus := NotRead |} ].
Proof.
  destruct (getProjects_lists_answer tt Favorites 10%Z 0%Z None service
              [plant; unnamed]
              {| invited := [bridge]; projects := [plant; unnamed];
                 requests := 1 |})
    as [Hrun _]; [discriminate | reflexivity |].
  exact (f_equal fst Hrun).
Defined.

(** X17 at work: the invited projects of a server that has one; the answer
    is the server's two projects. *)
Lemma invited_answer_dropped_witness :
  getProjects tt Invited 10%Z 0%Z None service =
  getProjects tt All 10%Z 0%Z None
    {| _connectClient :=
         {| invited := [bridge]; projects := [plant; unnamed];
            requests := 1 |};
       effects := [InvitedProjectsRequest (newQueryOptions 10%Z 0%Z None)] |}.
Proof.
  apply (invited_answer_dropped tt 10%Z 0%Z None service [bridge]).
  reflexivity.
Defined.

(** X18 at work: requests for no project at all, which the server
    refuses. *)
Lemma getProjects_rejects_witness :
  fst (getProjects tt MostRecentlyUsed 0%Z 0%Z None service)
  = inl "bad request"%string /\
  effects (snd (getProjects tt Invited 0%Z 0%Z None service)) =
    [InvitedProjectsRequest (newQueryOptions 0%Z 0%Z None);
     Alert "bad request"%string].
Proof.
  destruct (getProjects_rejects tt MostRecentlyUsed 0%Z 0%Z None service
              "bad request"%string
              {| invited := [bridge]; projects := [plant; unnamed];
                 requests := 1 |}) as [Hprojects _].
  destruct (getProjects_rejects tt Invited 0%Z 0%Z None service
              "bad request"%string
              {| invited := [bridge]; projects := [plant; unnamed];
                 requests := 1 |}) as [_ Hinvited].
  split.
  - exact (f_equal fst (Hprojects ltac:(discriminate) eq_refl)).
  - exact (f_equal (fun r => effects (snd r)) (Hinvited eq_refl)).
Defined.

End ProjectServicesRuns.
